(** * Resumable hyperparameter sweep: [hyperparameter_search_BCE.py]

    A shallow embedding of [run_hyper], [initialize_model] and
    [evaluate_model], and the properties of the sweep controller:
    enumeration of the grid, the resume filter, the incremental flushes of
    the result file and the behaviour on failures.

    The libraries the script calls (the preprocessing pipeline, the
    training routine, torch, scikit-learn, the csv reader and writer of
    pandas) are not part of the script: they are the fields of the class
    [Libraries], and every property holds for all of them.  What the
    script itself does with pandas frames (column selection,
    [itertuples], [pd.DataFrame] of a list of dicts, [pd.concat]) is
    modelled on the values of the cells.

    Left out: the calls to [logging], which change nothing the properties
    speak about; a failure of the write of the csv file; and the nine
    calls of [run_hyper] at the end of the script, of which the first is
    the example run of the module [Demo]. *)

From Stdlib Require Import ZArith List Bool Lia.
From Stdlib Require Import Floats.SpecFloat.
From stdpp Require Import base option list strings gmap.

Local Open Scope string_scope.
Local Open Scope list_scope.
Local Open Scope Z_scope.

(** ** Python values *)

(** The scalars that occur in a tuple of hyperparameters or in a cell of
    the result file.  A float is its binary64 value. *)
Inductive pyval : Type :=
| PyInt (z : Z)
| PyBool (b : bool)
| PyFloat (f : spec_float)
| PyStr (s : string).

(** The cell pandas shows for a value that is missing. *)
Definition NaN : pyval := PyFloat S754_nan.

Module PyEq.

Definition signed (s : bool) (m : positive) : Z :=
  if s then Z.neg m else Z.pos m.

(** [f == z] for a float and an int: Python compares the exact values. *)
Definition float_eq_int (f : spec_float) (z : Z) : bool :=
  match f with
  | S754_zero _ => z =? 0
  | S754_finite s m e =>
      if 0 <=? e then signed s m * 2 ^ e =? z
      else signed s m =? z * 2 ^ (- e)
  | S754_infinity _ | S754_nan => false
  end.

(** [f == g] for two floats: IEEE equality, on the exact values
    [m * 2^e]; a NaN equals nothing and the two zeros are equal. *)
Definition float_eqb (f g : spec_float) : bool :=
  match f, g with
  | S754_zero _, S754_zero _ => true
  | S754_infinity s, S754_infinity t => Bool.eqb s t
  | S754_finite s m e, S754_finite t n d =>
      if e <=? d then signed s m =? signed t n * 2 ^ (d - e)
      else signed s m * 2 ^ (e - d) =? signed t n
  | _, _ => false
  end.

Definition int_of_bool (b : bool) : Z := if b then 1 else 0.

(** Python's [x == y] on scalars: [True == 1 == 1.0], and a string
    equals only the same string. *)
Definition py_eq (x y : pyval) : bool :=
  match x, y with
  | PyStr s, PyStr t => String.eqb s t
  | PyStr _, _ | _, PyStr _ => false
  | PyFloat f, PyFloat g => float_eqb f g
  | PyFloat f, PyInt z | PyInt z, PyFloat f => float_eq_int f z
  | PyFloat f, PyBool b | PyBool b, PyFloat f => float_eq_int f (int_of_bool b)
  | PyInt z, PyInt w => z =? w
  | PyInt z, PyBool b | PyBool b, PyInt z => z =? int_of_bool b
  | PyBool a, PyBool b => Bool.eqb a b
  end.

(** [t == u] on tuples: same length and equal elementwise. *)
Fixpoint tuple_eqb (t u : list pyval) : bool :=
  match t, u with
  | [], [] => true
  | x :: t', y :: u' => py_eq x y && tuple_eqb t' u'
  | _, _ => false
  end.

(** [t in s] for a set [s] of tuples, kept as the list of its elements:
    some element equals [t].  Equal numbers have equal hashes in Python,
    so the hash lookup never hides an equal element; no tuple of the
    grid holds a NaN, so the identity shortcut of the comparison does
    not matter either. *)
Definition py_in (t : list pyval) (s : list (list pyval)) : bool :=
  existsb (fun u => tuple_eqb u t) s.

(** No two tuples of the list are equal. *)
Fixpoint no_dup_keys (l : list (list pyval)) : bool :=
  match l with
  | [] => true
  | t :: r => negb (py_in t r) && no_dup_keys r
  end.

End PyEq.
Export PyEq.

(** ** itertools.product *)

(** [itertools.product] of a list of pools: the tuples of the Cartesian
    product, as nested for-loops over the pools would yield them, the last
    pool cycling fastest. *)
Fixpoint product {A : Type} (pools : list (list A)) : list (list A) :=
  match pools with
  | [] => [[]]
  | pool :: pools' =>
      flat_map (fun x => map (cons x) (product pools')) pool
  end.

(** ** The grid of [run_hyper] *)

(** The binary64 values of the literals 0.0001, 0.001, 0.2 and 0.4. *)
Definition float_0_0001 : spec_float :=
  S754_finite false 7378697629483821 (-66).
Definition float_0_001 : spec_float := S754_finite false 4611686018427388 (-62).
Definition float_0_2 : spec_float := S754_finite false 7205759403792794 (-55).
Definition float_0_4 : spec_float := S754_finite false 7205759403792794 (-54).

Definition num_layers_lst : list pyval := [PyInt 1; PyInt 2].
Definition bidirectional_lst : list pyval := [PyBool false; PyBool true].
Definition LSTM_size_lst : list pyval := [PyInt 16; PyInt 32; PyInt 64].
Definition batch_size_lst : list pyval := [PyInt 128; PyInt 256; PyInt 512].
Definition learning_rate_lst : list pyval :=
  [PyFloat float_0_0001; PyFloat float_0_001].
Definition dropout_lst : list pyval := [PyFloat float_0_2; PyFloat float_0_4].

Definition axes : list (list pyval) :=
  [num_layers_lst; bidirectional_lst; LSTM_size_lst; batch_size_lst;
   learning_rate_lst; dropout_lst].

Definition hyperparameter_combinations : list (list pyval) := product axes.

(** ** Frames *)

(** A Python dict with string keys, in insertion order. *)
Definition dict : Type := list (string * pyval).

Fixpoint dict_get (d : dict) (k : string) : option pyval :=
  match d with
  | [] => None
  | (k', v) :: d' => if String.eqb k' k then Some v else dict_get d' k
  end.

(** A pandas frame, on the values of its cells: the column labels in
    order, and one dict per row, from the labels to the cells.  The
    dtypes of the columns are not modelled. *)
Record DataFrame : Type := mkFrame {
  columns : list string;
  rows : list dict
}.

Definition has_column (cols : list string) (c : string) : bool :=
  existsb (String.eqb c) cols.

(** The cell of a row under a label; a missing cell is NaN. *)
Definition cell (r : dict) (c : string) : pyval :=
  match dict_get r c with
  | Some v => v
  | None => NaN
  end.

(** [pd.DataFrame(columns=cols)]: no rows. *)
Definition DataFrame_columns (cols : list string) : DataFrame :=
  mkFrame cols [].

Definition add_labels (seen : list string) (r : dict) : list string :=
  fold_left (fun acc k => if has_column acc k then acc else acc ++ [k])
            (map fst r) seen.

(** [pd.DataFrame(records)] for a list of dicts: the columns are the keys
    in order of first appearance (none for the empty list), one row per
    dict. *)
Definition DataFrame_records (records : list dict) : DataFrame :=
  mkFrame (fold_left add_labels records []) records.

(** [df[names]]: the frame of the named columns; a label that is not a
    column raises KeyError (the value returned on the left lists the
    missing labels). *)
Definition getitem (df : DataFrame) (names : list string)
  : list string + DataFrame :=
  match List.filter (fun n => negb (has_column (columns df) n)) names with
  | [] => inr (mkFrame names
                 (map (fun r => map (fun c => (c, cell r c)) names) (rows df)))
  | missing => inl missing
  end.

(** [df.itertuples(index=False, name=None)]: one plain tuple per row. *)
Definition itertuples (df : DataFrame) : list (list pyval) :=
  map (fun r => map (cell r) (columns df)) (rows df).

(** [pd.concat([a, b], ignore_index=True)]: the rows of [a] then the rows
    of [b]; the columns of [a], then those of [b] that [a] lacks. *)
Definition concat (a b : DataFrame) : DataFrame :=
  mkFrame
    (columns a
     ++ List.filter (fun c => negb (has_column (columns a) c)) (columns b))
    (rows a ++ rows b).

Definition key_columns : list string :=
  ["num_layers"; "bidirectional"; "lstm_size"; "batch_size";
   "learning_rate"; "dropout"].

Definition result_columns : list string :=
  ["num_layers"; "bidirectional"; "lstm_size"; "batch_size";
   "learning_rate"; "dropout"; "auc_score"].

(** The six hyperparameters of a row, as the resume filter reads them. *)
Definition row_key (r : dict) : list pyval := map (cell r) key_columns.

(** ** The sweep *)

Section Types.

(** Opaque Python objects handed from one library to another (tensors,
    vocabulary sizes, the resolved prefix length), trained models,
    payloads of the exceptions the libraries raise, contents of a csv
    file, and the state of everything outside the script (random
    generators, devices) that the library calls read and change. *)
Variables data model E csv W : Type.

(** What [prepare.full_prep] returns and [run_hyper] keeps; the four
    values of the test split (positions 9 to 12) are dropped. *)
Record prep_data : Type := mkPrep {
  X_train : data; seq_len_train : data; y_train : data; s_train : data;
  X_val : data; seq_len_val : data; y_val : data; s_val : data;
  vocsizes : data; num_numerical_features : data;
  new_max_prefix_len : data
}.

(** The keyword arguments of [train_model.train_and_return_LSTM]. *)
Record train_args : Type := mkTrainArgs {
  kw_X_train : data; kw_seq_len_train : data; kw_y_train : data;
  kw_s_train : data;
  kw_loss_function : string;
  kw_vocab_sizes : data; kw_num_numerical_features : data;
  kw_dropout : pyval; kw_lstm_size : pyval; kw_num_lstm : pyval;
  kw_bidirectional : pyval;
  kw_max_length : data;
  kw_learning_rate : pyval;
  kw_max_epochs : Z;
  kw_batch_size : pyval;
  kw_patience : Z;
  kw_get_history : bool;
  kw_X_val : data; kw_seq_len_val : data; kw_y_val : data; kw_s_val : data
}.

(** The exceptions a run can end with, by the call that raised them. *)
Inductive exn : Type :=
| PreprocessingError (e : E)
| FileNotFoundError (path : string)
| ReadCsvError (e : E)
| KeyError (missing : list string)
| UnpackError (t : list pyval)
| TrainingError (e : E)
| ForwardError (e : E)
| MetricError (e : E).

(** What the properties below speak about: the calls of the script to
    preprocessing, training, evaluation and the csv writer, and the
    raising of an exception. *)
Inductive event : Type :=
| Prepare (filename logname : string) (max_prefix_len : Z)
          (drop_sensitive : bool) (sensitive_column : string)
| Train (a : train_args)
| Evaluate (m : model) (Xv yv lv : data)
| ToCsv (path : string) (df : DataFrame)
| Raised (e : exn).

Record state : Type := mkState {
  world : W;
  files : gmap string csv;
  trace : list event
}.

Inductive result (A : Type) : Type :=
| Ok (a : A)
| Raise (e : exn).

End Types.

Arguments mkPrep {data}.
Arguments X_train {data}.
Arguments seq_len_train {data}.
Arguments y_train {data}.
Arguments s_train {data}.
Arguments X_val {data}.
Arguments seq_len_val {data}.
Arguments y_val {data}.
Arguments s_val {data}.
Arguments vocsizes {data}.
Arguments num_numerical_features {data}.
Arguments new_max_prefix_len {data}.
Arguments mkTrainArgs {data}.
Arguments kw_X_train {data}.
Arguments kw_seq_len_train {data}.
Arguments kw_y_train {data}.
Arguments kw_s_train {data}.
Arguments kw_loss_function {data}.
Arguments kw_vocab_sizes {data}.
Arguments kw_num_numerical_features {data}.
Arguments kw_dropout {data}.
Arguments kw_lstm_size {data}.
Arguments kw_num_lstm {data}.
Arguments kw_bidirectional {data}.
Arguments kw_max_length {data}.
Arguments kw_learning_rate {data}.
Arguments kw_max_epochs {data}.
Arguments kw_batch_size {data}.
Arguments kw_patience {data}.
Arguments kw_get_history {data}.
Arguments kw_X_val {data}.
Arguments kw_seq_len_val {data}.
Arguments kw_y_val {data}.
Arguments kw_s_val {data}.
Arguments PreprocessingError {E}.
Arguments FileNotFoundError {E}.
Arguments ReadCsvError {E}.
Arguments KeyError {E}.
Arguments UnpackError {E}.
Arguments TrainingError {E}.
Arguments ForwardError {E}.
Arguments MetricError {E}.
Arguments Prepare {data model E}.
Arguments Train {data model E}.
Arguments Evaluate {data model E}.
Arguments ToCsv {data model E}.
Arguments Raised {data model E}.
Arguments mkState {data model E csv W}.
Arguments world {data model E csv W}.
Arguments files {data model E csv W}.
Arguments trace {data model E csv W}.
Arguments Ok {E A}.
Arguments Raise {E A}.

(** The library calls.  Each may raise; those that train or run a model
    also change the outside state. *)
Class Libraries (data model E csv W : Type) : Type := {
  full_prep :
    string -> string -> Z -> bool -> string -> W -> (E + prep_data data) * W;
  train_and_return_LSTM : train_args data -> W -> (E + model) * W;
  (** [model(X_val, seq_len_val)] after the moves to the device. *)
  forward : model -> data -> data -> W -> (E + data) * W;
  (** [roc_auc_score] of the flattened labels and predictions. *)
  roc_auc_score : data -> data -> E + spec_float;
  read_csv : csv -> E + DataFrame;
  to_csv : DataFrame -> csv
}.

Section Sweep.

Context {data model E csv W : Type} {L : Libraries data model E csv W}.

Local Abbreviation state := (state data model E csv W).
Local Abbreviation event := (event data model E).
Local Abbreviation exn := (exn E).
Local Abbreviation result := (result E).
Local Abbreviation prep_data := (prep_data data).
Local Abbreviation train_args := (train_args data).

(** State and exceptions: an exception ends the computation and keeps
    the state reached; the script has no handler.  The trace notes where
    an exception is raised. *)
Definition M (A : Type) : Type := state -> result A * state.

Definition ret {A} (a : A) : M A := fun st => (Ok a, st).
Definition raise {A} (e : exn) : M A :=
  fun st => (Raise e, mkState (world st) (files st) (trace st ++ [Raised e])).
Definition bind {A B} (m : M A) (k : A -> M B) : M B :=
  fun st =>
    match m st with
    | (Ok a, st') => k a st'
    | (Raise e, st') => (Raise e, st')
    end.

Notation "x <- m ;; k" := (bind m (fun x => k))
  (at level 100, m at next level, right associativity).
Notation "m ;;; k" := (bind m (fun _ => k))
  (at level 100, right associativity).

Definition emit (ev : event) : M unit :=
  fun st => (Ok tt, mkState (world st) (files st) (trace st ++ [ev])).

(** A library call on the outside state; [err] tags what it raises. *)
Definition call {A} (f : W -> (E + A) * W) (err : E -> exn) : M A :=
  fun st =>
    let '(r, w) := f (world st) in
    let st' := mkState w (files st) (trace st) in
    match r with
    | inr a => ret a st'
    | inl e => raise (err e) st'
    end.

Definition os_path_exists (path : string) : M bool :=
  fun st => (Ok (bool_decide (is_Some (files st !! path))), st).

Definition pd_read_csv (path : string) : M DataFrame :=
  fun st =>
    match files st !! path with
    | None => raise (FileNotFoundError path) st
    | Some c =>
        match read_csv c with
        | inr df => ret df st
        | inl e => raise (ReadCsvError e) st
        end
    end.

(** [df.to_csv(path, index=False)]: the file is replaced by the frame, as
    the csv writer renders it. *)
Definition df_to_csv (df : DataFrame) (path : string) : M unit :=
  emit (ToCsv path df) ;;;
  fun st => (Ok tt, mkState (world st) (<[path := to_csv df]> (files st))
                            (trace st)).

Definition prepare_full_prep (filename logname : string)
    (max_prefix_len : Z) (drop_sensitive : bool)
    (sensitive_column : string) : M prep_data :=
  emit (Prepare filename logname max_prefix_len drop_sensitive
                sensitive_column) ;;;
  call (full_prep filename logname max_prefix_len drop_sensitive
                  sensitive_column) PreprocessingError.

(** [initialize_model]: trains with the binary cross-entropy loss and
    without history. *)
Definition initialize_model
    (X_train seq_len_train y_train s_train vocab_sizes
     num_numerical_features : data)
    (num_layers bidirectional lstm_size batch_size learning_rate
     dropout : pyval)
    (max_length : data) (max_epochs patience : Z)
    (X_val seq_len_val y_val s_val : data) : M model :=
  let a :=
    {| kw_X_train := X_train;
       kw_seq_len_train := seq_len_train;
       kw_y_train := y_train;
       kw_s_train := s_train;
       kw_loss_function := "BCE";
       kw_vocab_sizes := vocab_sizes;
       kw_num_numerical_features := num_numerical_features;
       kw_dropout := dropout;
       kw_lstm_size := lstm_size;
       kw_num_lstm := num_layers;
       kw_bidirectional := bidirectional;
       kw_max_length := max_length;
       kw_learning_rate := learning_rate;
       kw_max_epochs := max_epochs;
       kw_batch_size := batch_size;
       kw_patience := patience;
       kw_get_history := false;
       kw_X_val := X_val;
       kw_seq_len_val := seq_len_val;
       kw_y_val := y_val;
       kw_s_val := s_val |} in
  emit (Train a) ;;;
  call (train_and_return_LSTM a) TrainingError.

(** [evaluate_model]: one forward pass on the validation data, then the
    area under the ROC curve. *)
Definition evaluate_model (m : model) (X_val y_val seq_len_val : data)
  : M spec_float :=
  emit (Evaluate m X_val y_val seq_len_val) ;;;
  val_output <- call (forward m X_val seq_len_val) ForwardError ;;
  match roc_auc_score y_val val_output with
  | inr auc => ret auc
  | inl e => raise (MetricError e)
  end.

Definition results_path_of (logname addendum : string) : string :=
  "Results/Hyperparameters/BCE/" +:+ logname +:+ "_" +:+ addendum
    +:+ "_hyperparameter_tuning_results.csv".

(** Lines 55 to 67: the frame of the earlier results and the set of the
    combinations they cover. *)
Definition load_results (results_path : string)
  : M (DataFrame * list (list pyval)) :=
  found <- os_path_exists results_path ;;
  if (found : bool) then
    existing_results_df <- pd_read_csv results_path ;;
    match getitem existing_results_df key_columns with
    | inr keys => ret (existing_results_df, itertuples keys)
    | inl missing => raise (KeyError missing)
    end
  else
    ret (DataFrame_columns result_columns, []).

(** The dict appended to [new_results]. *)
Definition result_record
    (num_layers bidirectional lstm_size batch_size learning_rate
     dropout : pyval) (auc : spec_float) : dict :=
  [("num_layers", num_layers); ("bidirectional", bidirectional);
   ("lstm_size", lstm_size); ("batch_size", batch_size);
   ("learning_rate", learning_rate); ("dropout", dropout);
   ("auc_score", PyFloat auc)].

(** Lines 75 to 124: the loop over [combinations_to_run]. *)
Fixpoint for_combinations (d : prep_data) (existing_results_df : DataFrame)
    (results_path : string) (combinations_to_run : list (list pyval))
    (new_results : list dict) : M (list dict) :=
  match combinations_to_run with
  | [] => ret new_results
  | combination :: rest =>
      match combination with
      | [num_layers; bidirectional; lstm_size; batch_size; learning_rate;
         dropout] =>
          m <- initialize_model
                 (X_train d) (seq_len_train d) (y_train d) (s_train d)
                 (vocsizes d) (num_numerical_features d)
                 num_layers bidirectional lstm_size batch_size
                 learning_rate dropout
                 (new_max_prefix_len d) 300 20
                 (X_val d) (seq_len_val d) (y_val d) (s_val d) ;;
          auc <- evaluate_model m (X_val d) (y_val d) (seq_len_val d) ;;
          let new_results :=
            new_results ++ [result_record num_layers bidirectional lstm_size
                              batch_size learning_rate dropout auc] in
          let temp_results_df := DataFrame_records new_results in
          let results_df := concat existing_results_df temp_results_df in
          df_to_csv results_df results_path ;;;
          for_combinations d existing_results_df results_path rest
                           new_results
      | _ => raise (UnpackError combination)
      end
  end.

(** [run_hyper]: preprocessing, the grid, the earlier results, the loop
    over the combinations they do not cover, and the final write. *)
Definition run_hyper (dataset_name logname : string) (max_prefix_len : Z)
    (addendum : string) : M DataFrame :=
  d <- prepare_full_prep dataset_name logname max_prefix_len false
                         "case:gender" ;;
  let results_path := results_path_of logname addendum in
  loaded <- load_results results_path ;;
  let existing_results_df := fst loaded in
  let completed_combinations := snd loaded in
  let combinations_to_run :=
    List.filter (fun comb => negb (py_in comb completed_combinations))
           hyperparameter_combinations in
  new_results <- for_combinations d existing_results_df results_path
                                  combinations_to_run [] ;;
  let results_df :=
    concat existing_results_df (DataFrame_records new_results) in
  df_to_csv results_df results_path ;;;
  ret results_df.

(** *** What a run leaves behind, for the statements *)

(** One pass of the loop body that reached its flush: the unpacked
    combination, the model trained for it and its score. *)
Record iteration : Type := mkIteration {
  it_num_layers : pyval; it_bidirectional : pyval; it_lstm_size : pyval;
  it_batch_size : pyval; it_learning_rate : pyval; it_dropout : pyval;
  it_model : model;
  it_auc : spec_float
}.

Definition tuple6 (a b c d e f : pyval) : list pyval := [a; b; c; d; e; f].

Definition it_combination (i : iteration) : list pyval :=
  tuple6 (it_num_layers i) (it_bidirectional i) (it_lstm_size i)
         (it_batch_size i) (it_learning_rate i) (it_dropout i).

Definition it_record (i : iteration) : dict :=
  result_record (it_num_layers i) (it_bidirectional i) (it_lstm_size i)
                (it_batch_size i) (it_learning_rate i) (it_dropout i)
                (it_auc i).

(** The arguments the training routine gets for a combination, given
    the prepared data. *)
Definition sweep_train_args (d : prep_data)
    (num_layers bidirectional lstm_size batch_size learning_rate
     dropout : pyval) : train_args :=
  {| kw_X_train := X_train d;
     kw_seq_len_train := seq_len_train d;
     kw_y_train := y_train d;
     kw_s_train := s_train d;
     kw_loss_function := "BCE";
     kw_vocab_sizes := vocsizes d;
     kw_num_numerical_features := num_numerical_features d;
     kw_dropout := dropout;
     kw_lstm_size := lstm_size;
     kw_num_lstm := num_layers;
     kw_bidirectional := bidirectional;
     kw_max_length := new_max_prefix_len d;
     kw_learning_rate := learning_rate;
     kw_max_epochs := 300;
     kw_batch_size := batch_size;
     kw_patience := 20;
     kw_get_history := false;
     kw_X_val := X_val d;
     kw_seq_len_val := seq_len_val d;
     kw_y_val := y_val d;
     kw_s_val := s_val d |}.

Definition it_train_args (d : prep_data) (i : iteration) : train_args :=
  sweep_train_args d (it_num_layers i) (it_bidirectional i)
                   (it_lstm_size i) (it_batch_size i)
                   (it_learning_rate i) (it_dropout i).

(** The events of completed passes of the loop, [acc] being
    [new_results] before the first of them. *)
Fixpoint iterations_events (d : prep_data) (existing : DataFrame)
    (path : string) (acc : list dict) (its : list iteration)
  : list event :=
  match its with
  | [] => []
  | i :: its' =>
      let acc' := acc ++ [it_record i] in
      Train (it_train_args d i)
      :: Evaluate (it_model i) (X_val d) (y_val d) (seq_len_val d)
      :: ToCsv path (concat existing (DataFrame_records acc'))
      :: iterations_events d existing path acc' its'
  end.

(** How the loop over [combs] ended after the completed passes [its]:
    the value or exception it produced and the events of the pass that
    was cut short. *)
Inductive loop_outcome (d : prep_data) (combs : list (list pyval))
    (acc : list dict) (its : list iteration)
  : list event -> result (list dict) -> Prop :=
| loop_finished :
    map it_combination its = combs ->
    loop_outcome d combs acc its [] (Ok (acc ++ map it_record its))
| loop_unpack_failed c rest :
    combs = map it_combination its ++ c :: rest ->
    length c <> 6%nat ->
    loop_outcome d combs acc its [Raised (UnpackError c)]
                 (Raise (UnpackError c))
| loop_training_failed nl bi ls bs lr dr rest e :
    combs = map it_combination its ++ tuple6 nl bi ls bs lr dr :: rest ->
    loop_outcome d combs acc its
      [Train (sweep_train_args d nl bi ls bs lr dr);
       Raised (TrainingError e)]
      (Raise (TrainingError e))
| loop_forward_failed nl bi ls bs lr dr rest m e :
    combs = map it_combination its ++ tuple6 nl bi ls bs lr dr :: rest ->
    loop_outcome d combs acc its
      [Train (sweep_train_args d nl bi ls bs lr dr);
       Evaluate m (X_val d) (y_val d) (seq_len_val d);
       Raised (ForwardError e)]
      (Raise (ForwardError e))
| loop_metric_failed nl bi ls bs lr dr rest m e :
    combs = map it_combination its ++ tuple6 nl bi ls bs lr dr :: rest ->
    loop_outcome d combs acc its
      [Train (sweep_train_args d nl bi ls bs lr dr);
       Evaluate m (X_val d) (y_val d) (seq_len_val d);
       Raised (MetricError e)]
      (Raise (MetricError e)).

(** The six swept values of a training call, in the order of the axes. *)
Definition train_key (a : train_args) : list pyval :=
  tuple6 (kw_num_lstm a) (kw_bidirectional a) (kw_lstm_size a)
         (kw_batch_size a) (kw_learning_rate a) (kw_dropout a).

Inductive collaborator_call : Type :=
| Trained (combination : list pyval)
| Evaluated.

(** The training and evaluation calls of a trace, in order. *)
Fixpoint collaborator_calls (tr : list event) : list collaborator_call :=
  match tr with
  | [] => []
  | Train a :: tr' => Trained (train_key a) :: collaborator_calls tr'
  | Evaluate _ _ _ _ :: tr' => Evaluated :: collaborator_calls tr'
  | _ :: tr' => collaborator_calls tr'
  end.

(** What a sweep over [combs] calls when nothing fails. *)
Definition calls_for (combs : list (list pyval)) : list collaborator_call :=
  flat_map (fun c => [Trained c; Evaluated]) combs.

(** The work of the loop in a trace: training, evaluation and writing,
    in the order they happen. *)
Inductive step : Type :=
| Trains (combination : list pyval)
| Evaluates
| Writes (path : string) (df : DataFrame).

Fixpoint steps (tr : list event) : list step :=
  match tr with
  | [] => []
  | Train a :: tr' => Trains (train_key a) :: steps tr'
  | Evaluate _ _ _ _ :: tr' => Evaluates :: steps tr'
  | ToCsv path df :: tr' => Writes path df :: steps tr'
  | _ :: tr' => steps tr'
  end.

(** The steps of the combinations that reach their flush, given the
    records [recs] they produce: each is trained, evaluated, and then the
    file is rewritten with the earlier frame followed by the records so
    far ([acc] holds those of before). *)
Fixpoint completed_steps (existing : DataFrame) (path : string)
    (acc recs : list dict) : list step :=
  match recs with
  | [] => []
  | r :: recs' =>
      let acc' := acc ++ [r] in
      Trains (row_key r) :: Evaluates
      :: Writes path (concat existing (DataFrame_records acc'))
      :: completed_steps existing path acc' recs'
  end.

(** The training calls of a trace, with their arguments. *)
Fixpoint training_calls (tr : list event) : list train_args :=
  match tr with
  | [] => []
  | Train a :: tr' => a :: training_calls tr'
  | _ :: tr' => training_calls tr'
  end.

(** The frames written by a trace, with their paths, in order. *)
Fixpoint flushes (tr : list event) : list (string * DataFrame) :=
  match tr with
  | [] => []
  | ToCsv path df :: tr' => (path, df) :: flushes tr'
  | _ :: tr' => flushes tr'
  end.

Fixpoint prepare_calls (tr : list event) : nat :=
  match tr with
  | [] => O
  | Prepare _ _ _ _ _ :: tr' => S (prepare_calls tr')
  | _ :: tr' => prepare_calls tr'
  end.

(** The data of a training or evaluation call is the prepared data. *)
Definition uses_prepared (d : prep_data) (ev : event) : Prop :=
  match ev with
  | Train a =>
      kw_X_train a = X_train d /\ kw_seq_len_train a = seq_len_train d /\
      kw_y_train a = y_train d /\ kw_s_train a = s_train d /\
      kw_vocab_sizes a = vocsizes d /\
      kw_num_numerical_features a = num_numerical_features d /\
      kw_X_val a = X_val d /\ kw_seq_len_val a = seq_len_val d /\
      kw_y_val a = y_val d /\ kw_s_val a = s_val d /\
      kw_max_length a = new_max_prefix_len d
  | Evaluate _ Xv yv lv =>
      Xv = X_val d /\ yv = y_val d /\ lv = seq_len_val d
  | _ => True
  end.

(** The part of the training configuration that the sweep never
    changes. *)
Definition fixed_configuration (a : train_args) : Prop :=
  kw_loss_function a = "BCE" /\ kw_max_epochs a = 300 /\
  kw_patience a = 20 /\ kw_get_history a = false.

(** The error classes of the design: a failure to read the result file
    back, and a failure inside training or evaluation. *)
Definition is_parse_error (e : exn) : bool :=
  match e with
  | ReadCsvError _ | KeyError _ => true
  | _ => false
  end.

Definition is_collaborator_failure (e : exn) : bool :=
  match e with
  | TrainingError _ | ForwardError _ | MetricError _ => true
  | _ => false
  end.

(** What loading the result file gives from the files [fs]: the value
    or exception of [load_results], which reads the files and changes
    none. *)
Definition load_outcome (fs : gmap string csv) (path : string)
  : result (DataFrame * list (list pyval)) :=
  match fs !! path with
  | None => Ok (DataFrame_columns result_columns, [])
  | Some c =>
      match read_csv c with
      | inl e => Raise (ReadCsvError e)
      | inr df =>
          match getitem df key_columns with
          | inl missing => Raise (KeyError missing)
          | inr keys => Ok (df, itertuples keys)
          end
      end
  end.

(** The records and the completed set a sweep starting from [fs] finds:
    none when the file is absent or does not load. *)
Definition stored_rows (fs : gmap string csv) (path : string) : list dict :=
  match load_outcome fs path with
  | Ok (df, _) => rows df
  | Raise _ => []
  end.

Definition completed_set (fs : gmap string csv) (path : string)
  : list (list pyval) :=
  match load_outcome fs path with
  | Ok (_, completed) => completed
  | Raise _ => []
  end.

(** The combinations a sweep starting from [fs] has to run. *)
Definition pending (fs : gmap string csv) (path : string)
  : list (list pyval) :=
  List.filter (fun comb => negb (py_in comb (completed_set fs path)))
         hyperparameter_combinations.

(** A run from the outside state [w] and the files [fs], with an empty
    trace. *)
Definition sweep (dataset_name logname : string) (max_prefix_len : Z)
    (addendum : string) (w : W) (fs : gmap string csv)
  : result DataFrame * state :=
  run_hyper dataset_name logname max_prefix_len addendum (mkState w fs []).

(** The four ways a run can go: preprocessing raises; the result file
    does not load; the loop stops at a pass that raised, after the passes
    [its]; or every pending combination completes and the final frame is
    written and returned. *)
Inductive sweep_shape (dataset_name logname : string) (max_prefix_len : Z)
    (addendum : string) (w : W) (fs : gmap string csv)
  : result DataFrame -> state -> Prop :=
| shape_preprocessing_failed e w1 :
    full_prep dataset_name logname max_prefix_len false "case:gender" w
      = (inl e, w1) ->
    sweep_shape dataset_name logname max_prefix_len addendum w fs
      (Raise (PreprocessingError e))
      (mkState w1 fs
         [Prepare dataset_name logname max_prefix_len false "case:gender";
          Raised (PreprocessingError e)])
| shape_load_failed d w1 e :
    full_prep dataset_name logname max_prefix_len false "case:gender" w
      = (inr d, w1) ->
    load_outcome fs (results_path_of logname addendum) = Raise e ->
    sweep_shape dataset_name logname max_prefix_len addendum w fs
      (Raise e)
      (mkState w1 fs
         [Prepare dataset_name logname max_prefix_len false "case:gender";
          Raised e])
| shape_loop_failed d w1 existing completed its tail e w2 :
    let path := results_path_of logname addendum in
    full_prep dataset_name logname max_prefix_len false "case:gender" w
      = (inr d, w1) ->
    load_outcome fs path = Ok (existing, completed) ->
    loop_outcome d (pending fs path) [] its tail (Raise e) ->
    sweep_shape dataset_name logname max_prefix_len addendum w fs
      (Raise e)
      (mkState w2
         match its with
         | [] => fs
         | _ => <[path := to_csv (concat existing
                   (DataFrame_records (map it_record its)))]> fs
         end
         (Prepare dataset_name logname max_prefix_len false "case:gender"
          :: iterations_events d existing path [] its ++ tail))
| shape_completed d w1 existing completed its w2 :
    let path := results_path_of logname addendum in
    let results_df :=
      concat existing (DataFrame_records (map it_record its)) in
    full_prep dataset_name logname max_prefix_len false "case:gender" w
      = (inr d, w1) ->
    load_outcome fs path = Ok (existing, completed) ->
    map it_combination its = pending fs path ->
    sweep_shape dataset_name logname max_prefix_len addendum w fs
      (Ok results_df)
      (mkState w2 (<[path := to_csv results_df]> fs)
         (Prepare dataset_name logname max_prefix_len false "case:gender"
          :: iterations_events d existing path [] its
             ++ [ToCsv path results_df])).

End Sweep.

Arguments iteration : clear implicits.
Arguments M : clear implicits.


(** ** The script, and what the further properties speak about *)

Section Script.

Context {data model E csv W : Type} {L : Libraries data model E csv W}.

Local Abbreviation state := (state data model E csv W).
Local Abbreviation event := (event data model E).
Local Abbreviation M := (M data model E csv W).

Local Notation "m ;;; k" := (bind m (fun _ => k))
  (at level 100, right associativity).

(** Lines 195 to 213: the nine sweeps, one after the other.  An exception
    that leaves one of them ends the script. *)
Definition script : M unit :=
  run_hyper "Datasets/lending_log_high.xes.gz" "lending" 6 "high" ;;;
  run_hyper "Datasets/lending_log_medium.xes.gz" "lending" 6 "medium" ;;;
  run_hyper "Datasets/lending_log_low.xes.gz" "lending" 6 "low" ;;;
  run_hyper "Datasets/hiring_log_high.xes.gz" "hiring" 6 "high" ;;;
  run_hyper "Datasets/hiring_log_medium.xes.gz" "hiring" 6 "medium" ;;;
  run_hyper "Datasets/hiring_log_low.xes.gz" "hiring" 6 "low" ;;;
  run_hyper "Datasets/renting_log_high.xes.gz" "renting" 6 "high" ;;;
  run_hyper "Datasets/renting_log_medium.xes.gz" "renting" 6 "medium" ;;;
  run_hyper "Datasets/renting_log_low.xes.gz" "renting" 6 "low" ;;;
  ret tt.

(** The arguments of a call of [run_hyper]. *)
Record invocation : Type := mkInvocation {
  inv_dataset_name : string;
  inv_logname : string;
  inv_max_prefix_len : Z;
  inv_addendum : string
}.

Definition script_invocations : list invocation :=
  [mkInvocation "Datasets/lending_log_high.xes.gz" "lending" 6 "high";
   mkInvocation "Datasets/lending_log_medium.xes.gz" "lending" 6 "medium";
   mkInvocation "Datasets/lending_log_low.xes.gz" "lending" 6 "low";
   mkInvocation "Datasets/hiring_log_high.xes.gz" "hiring" 6 "high";
   mkInvocation "Datasets/hiring_log_medium.xes.gz" "hiring" 6 "medium";
   mkInvocation "Datasets/hiring_log_low.xes.gz" "hiring" 6 "low";
   mkInvocation "Datasets/renting_log_high.xes.gz" "renting" 6 "high";
   mkInvocation "Datasets/renting_log_medium.xes.gz" "renting" 6 "medium";
   mkInvocation "Datasets/renting_log_low.xes.gz" "renting" 6 "low"].

(** Sweeps run one after the other, as statements of a script. *)
Fixpoint run_all (invs : list invocation) : M unit :=
  match invs with
  | [] => ret tt
  | i :: invs' =>
      run_hyper (inv_dataset_name i) (inv_logname i) (inv_max_prefix_len i)
                (inv_addendum i) ;;;
      run_all invs'
  end.

Definition inv_results_path (i : invocation) : string :=
  results_path_of (inv_logname i) (inv_addendum i).

(** The preprocessing call of a sweep. *)
Definition inv_prepare (i : invocation) : event :=
  Prepare (inv_dataset_name i) (inv_logname i) (inv_max_prefix_len i)
          false "case:gender".

(** The preprocessing calls of a trace, in order. *)
Fixpoint prepare_events (tr : list event) : list event :=
  match tr with
  | [] => []
  | Prepare f l n ds col :: tr' => Prepare f l n ds col :: prepare_events tr'
  | _ :: tr' => prepare_events tr'
  end.

(** The combinations trained in a trace, in order. *)
Definition trained_combinations (tr : list event) : list (list pyval) :=
  map train_key (training_calls tr).

(** A state seen with the events [tr] before its own. *)
Definition with_earlier (tr : list event) (st : state) : state :=
  mkState (world st) (files st) (tr ++ trace st).

(** A computation that does the same whatever happened before it. *)
Definition history_blind {A : Type} (m : M A) : Prop :=
  forall tr st,
    m (with_earlier tr st) = (fst (m st), with_earlier tr (snd (m st))).

(** The records of the combinations [combs], computed one after the other
    from the outside state [w]: each combination is trained with the
    fixed configuration, the model obtained is run on the validation
    data, and the score of its output goes into the record of that
    combination; [w'] is the outside state after the last of them. *)
Inductive scored_by (d : prep_data data)
  : W -> list (list pyval) -> list dict -> W -> Prop :=
| scored_none w : scored_by d w [] [] w
| scored_next w nl bi ls bs lr dr combs m w1 out w2 auc recs w' :
    train_and_return_LSTM (sweep_train_args d nl bi ls bs lr dr) w
      = (inr m, w1) ->
    forward m (X_val d) (seq_len_val d) w1 = (inr out, w2) ->
    roc_auc_score (y_val d) out = inr auc ->
    scored_by d w2 combs recs w' ->
    scored_by d w (tuple6 nl bi ls bs lr dr :: combs)
              (result_record nl bi ls bs lr dr auc :: recs) w'.

End Script.

(** ** A concrete set of libraries

    Used to run the sweep on explicit inputs.  The outside state counts
    the models trained so far; training fails once the counter reaches
    [budget], the model is the counter, the forward pass returns it, and
    the metric is undefined for the prediction 1000.  A csv file holds the
    frame written to it and reads back as that frame. *)
Module Demo.

Definition demo_data : prep_data Z := mkPrep 1 2 3 4 5 6 7 8 9 10 6.

(** The binary64 value of 0.5. *)
Definition half : spec_float := S754_finite false 4503599627370496 (-53).

Definition lib (budget : nat) : Libraries Z nat string DataFrame nat := {|
  full_prep := fun _ _ _ _ _ w => (inr demo_data, w);
  train_and_return_LSTM := fun _ w =>
    if (w <? budget)%nat then (inr w, S w) else (inl "out of memory", w);
  forward := fun m _ _ w => (inr (Z.of_nat m), w);
  roc_auc_score := fun _ p =>
    if p =? 1000 then inl "only one class present" else inr half;
  read_csv := fun c => inr c;
  to_csv := fun df => df
|}.

Definition path : string :=
  "Results/Hyperparameters/BCE/lending_high_hyperparameter_tuning_results.csv".

(** The row of a finished combination, with score 0.5. *)
Definition seed_row (c : list pyval) : dict :=
  combine key_columns c ++ [("auc_score", PyFloat half)].

(** A result file that covers the first [n] combinations of the grid. *)
Definition seeded (n : nat) : DataFrame :=
  mkFrame result_columns (map seed_row (firstn n hyperparameter_combinations)).

(** Result files: one that leaves the last three combinations to run, one
    that leaves the last four, one without the hyperparameter columns,
    and one that records the first combination twice. *)
Definition three_left : gmap string DataFrame := <[path := seeded 141]> ∅.
Definition four_left : gmap string DataFrame := <[path := seeded 140]> ∅.
Definition malformed : gmap string DataFrame :=
  <[path := mkFrame ["num_layers"; "auc_score"] []]> ∅.

Definition first_combination : list pyval :=
  [PyInt 1; PyBool false; PyInt 16; PyInt 128;
   PyFloat float_0_0001; PyFloat float_0_2].


(** A run of the first entry point of the script. *)
Definition run (budget : nat) (w : nat) (fs : gmap string DataFrame) :=
  sweep (L := lib budget) "Datasets/lending_log_high.xes.gz" "lending" 6 "high"
        w fs.

End Demo.

(** Files for runs of the whole script with the libraries of [Demo]: every
    result file of the script covers the first [n] combinations.  And
    libraries whose preprocessing finds no data. *)
Module DemoScript.

Definition all_seeded (n : nat) : gmap string DataFrame :=
  list_to_map (map (fun i => (inv_results_path i, Demo.seeded n))
                   script_invocations).

Definition run_script (budget : nat) (w : nat)
    (fs : gmap string DataFrame) :=
  script (L := Demo.lib budget) (mkState w fs []).

Definition lib_without_data : Libraries Z nat string DataFrame nat := {|
  full_prep := fun _ _ _ _ _ w => (inl "no such file", w);
  train_and_return_LSTM := fun _ w => (inr w, S w);
  forward := fun m _ _ w => (inr (Z.of_nat m), w);
  roc_auc_score := fun _ _ => inr Demo.half;
  read_csv := fun c => inr c;
  to_csv := fun df => df
|}.

End DemoScript.

(** ** The definitions on small inputs *)

(** The float constants are the doubles nearest to the decimal literals:
    the correctly rounded quotients 1/10000, 1/1000, 2/10 and 4/10. *)
Example float_literals :
  let of_int z := binary_normalize 53 1024 z 0 false in
  let quotient n d := SFdiv 53 1024 (of_int n) (of_int d) in
  quotient 1 10000 = float_0_0001 /\ quotient 1 1000 = float_0_001
  /\ quotient 2 10 = float_0_2 /\ quotient 4 10 = float_0_4.
Proof. vm_compute. repeat split. Qed.

Example python_equality :
  py_eq (PyBool true) (PyInt 1) = true
  /\ py_eq (PyInt 1) (PyFloat (S754_finite false 4503599627370496 (-52))) = true
  /\ py_eq (PyFloat float_0_2) (PyFloat float_0_4) = false
  /\ py_eq (PyFloat float_0_001) (PyInt 0) = false
  /\ py_eq (PyStr "1") (PyInt 1) = false
  /\ py_eq NaN NaN = false.
Proof. vm_compute. repeat split. Qed.

Example tuple_membership :
  py_in [PyInt 1; PyBool true] [[PyInt 2; PyBool true]; [PyInt 1; PyInt 1]]
  = true
  /\ py_in [PyInt 1; PyBool true] [[PyInt 1]; [PyInt 1; PyBool false]] = false.
Proof. vm_compute. split; reflexivity. Qed.

Example product_order :
  product [[1; 2]; [3; 4]; [5; 6]]
  = [[1; 3; 5]; [1; 3; 6]; [1; 4; 5]; [1; 4; 6];
     [2; 3; 5]; [2; 3; 6]; [2; 4; 5]; [2; 4; 6]].
Proof. reflexivity. Qed.

Example first_and_last_combination :
  hd_error hyperparameter_combinations = Some Demo.first_combination
  /\ last hyperparameter_combinations
     = Some [PyInt 2; PyBool true; PyInt 64; PyInt 512;
             PyFloat float_0_001; PyFloat float_0_4].
Proof. vm_compute. split; reflexivity. Qed.

(** A frame that lacks a key column, and the concatenation with new
    records of a frame that has its columns in another order. *)
Example frames :
  getitem (mkFrame ["num_layers"; "auc_score"] []) key_columns
  = inl ["bidirectional"; "lstm_size"; "batch_size"; "learning_rate";
         "dropout"]
  /\ concat (mkFrame ["b"; "a"] [[("b", PyInt 1); ("a", PyInt 2)]])
            (DataFrame_records [[("a", PyInt 3); ("c", PyInt 4)]])
     = mkFrame ["b"; "a"; "c"]
               [[("b", PyInt 1); ("a", PyInt 2)];
                [("a", PyInt 3); ("c", PyInt 4)]]
  /\ itertuples
       (mkFrame ["b"; "a"; "c"]
                [[("b", PyInt 1); ("a", PyInt 2)];
                 [("a", PyInt 3); ("c", PyInt 4)]])
     = [[PyInt 1; PyInt 2; NaN]; [NaN; PyInt 3; PyInt 4]].
Proof. vm_compute. repeat split. Qed.

(** ** Properties of the enumeration *)

(** The grid and the lists filtered from it stay folded in the proofs. *)
Arguments hyperparameter_combinations : simpl never.
Arguments pending : simpl never.
Arguments results_path_of : simpl never.

Section Product.

Context {A : Type}.

Lemma in_product (pools : list (list A)) :
  forall t, In t (product pools) <-> Forall2 (fun x pool => In x pool) t pools.
Proof.
  induction pools as [|pool pools IH]; intros t; cbn.
  - split.
    + intros [<- | []]. constructor.
    + intros H. inversion H. now left.
  - rewrite in_flat_map. split.
    + intros (x & Hx & Ht). apply in_map_iff in Ht as (t' & <- & Ht').
      constructor; [exact Hx | now apply IH].
    + intros H. inversion H as [|x pool' t' pools' Hx Ht']; subst.
      exists x. split; [exact Hx|]. apply in_map_iff. exists t'.
      split; [reflexivity | now apply IH].
Qed.

Lemma length_product (pools : list (list A)) :
  length (product pools)
  = fold_right (fun pool n => (length pool * n)%nat) 1%nat pools.
Proof.
  induction pools as [|pool pools IH]; cbn; [reflexivity|].
  rewrite <- IH. clear IH.
  induction pool as [|x pool IHp]; cbn; [reflexivity|].
  rewrite length_app, length_map, IHp. reflexivity.
Qed.

Lemma NoDup_product (pools : list (list A)) :
  Forall (@List.NoDup A) pools -> List.NoDup (product pools).
Proof.
  induction pools as [|pool pools IH]; intros Hnd; cbn.
  - constructor; [intros [] | constructor].
  - inversion Hnd as [|? ? Hpool Hpools]; subst.
    specialize (IH Hpools). clear Hnd.
    induction Hpool as [|x pool Hx Hpool IHp]; cbn; [constructor|].
    apply List.NoDup_app.
    + apply List.NoDup_map_NoDup_ForallPairs; [|exact IH].
      intros ? ? _ _ [= ->]. reflexivity.
    + exact IHp.
    + intros t Ht Ht'. apply in_map_iff in Ht as (t1 & <- & _).
      apply in_flat_map in Ht' as (y & Hy & Ht').
      apply in_map_iff in Ht' as (t2 & [= -> ->] & _).
      apply Hx. exact Hy.
Qed.

End Product.

(** ** Properties of the comparison of tuples *)

Lemma float_eqb_sym f g : float_eqb f g = float_eqb g f.
Proof.
  destruct f as [s|s| |s m e], g as [t|t| |t n d]; cbn; try reflexivity.
  - destruct s, t; reflexivity.
  - destruct (Z.leb_spec e d), (Z.leb_spec d e);
      try apply Z.eqb_sym; try lia.
    assert (e = d) as -> by lia. rewrite Z.sub_diag, !Z.mul_1_r.
    apply Z.eqb_sym.
Qed.

Lemma py_eq_sym x y : py_eq x y = py_eq y x.
Proof.
  destruct x as [z|a|f|s], y as [w|b|g|t]; cbn; try reflexivity.
  - apply Z.eqb_sym.
  - destruct a, b; reflexivity.
  - apply float_eqb_sym.
  - apply String.eqb_sym.
Qed.

Lemma tuple_eqb_sym t : forall u, tuple_eqb t u = tuple_eqb u t.
Proof.
  induction t as [|x t IH]; intros [|y u]; cbn; try reflexivity.
  rewrite py_eq_sym, IH. reflexivity.
Qed.

Lemma py_in_app t l1 l2 : py_in t (l1 ++ l2) = py_in t l1 || py_in t l2.
Proof. apply existsb_app. Qed.

Lemma py_in_false t l :
  py_in t l = false <-> forall u, In u l -> tuple_eqb u t = false.
Proof.
  unfold py_in. induction l as [|v l IH]; cbn.
  - split; [intros _ u [] | reflexivity].
  - rewrite orb_false_iff, IH. split.
    + intros [Hv Hl] u [<- | Hu]; auto.
    + intros H. split; [apply H; now left | intros u Hu; apply H; now right].
Qed.

Lemma py_in_true t l :
  py_in t l = true <-> exists u, In u l /\ tuple_eqb u t = true.
Proof. apply existsb_exists. Qed.

Lemma no_dup_keys_app l1 l2 :
  no_dup_keys (l1 ++ l2) = true <->
  no_dup_keys l1 = true /\ no_dup_keys l2 = true /\
  forall t, In t l1 -> py_in t l2 = false.
Proof.
  induction l1 as [|x l1 IH]; cbn.
  - split.
    + intros H. repeat split; [exact H | intros t []].
    + intros (_ & H & _). exact H.
  - rewrite !andb_true_iff, !negb_true_iff, py_in_app, orb_false_iff, IH.
    split.
    + intros ((Hx1 & Hx2) & H1 & H2 & H3). repeat split; auto.
      intros t [<- | Ht]; auto.
    + intros ((Hx1 & H1) & H2 & H3). repeat split; auto.
Qed.

Lemma no_dup_keys_filter (f : list pyval -> bool) l :
  no_dup_keys l = true -> no_dup_keys (List.filter f l) = true.
Proof.
  induction l as [|x l IH]; cbn; [reflexivity|].
  rewrite andb_true_iff, negb_true_iff. intros [Hx Hl].
  destruct (f x); cbn; [|auto].
  rewrite andb_true_iff, negb_true_iff. split; [|auto].
  apply py_in_false. intros u Hu. apply filter_In in Hu as [Hu _].
  revert u Hu. apply py_in_false. exact Hx.
Qed.

(** ** Properties of the frames *)

Lemma rows_concat a b : rows (concat a b) = rows a ++ rows b.
Proof. reflexivity. Qed.

Lemma rows_DataFrame_records l : rows (DataFrame_records l) = l.
Proof. reflexivity. Qed.


Lemma has_column_concat a b c :
  has_column (columns a) c = true -> has_column (columns (concat a b)) c = true.
Proof.
  unfold has_column, concat. cbn. rewrite existsb_app. intros ->. reflexivity.
Qed.

(** Selecting the six key columns succeeds exactly when the frame has
    them all, and the tuples of the selection are the keys of the rows. *)
Lemma getitem_key_columns df :
  match getitem df key_columns with
  | inr keys =>
      forallb (has_column (columns df)) key_columns = true /\
      itertuples keys = map row_key (rows df)
  | inl missing =>
      missing <> [] /\
      forall k, In k missing <->
                In k key_columns /\ has_column (columns df) k = false
  end.
Proof.
  unfold getitem.
  destruct (List.filter _ key_columns) as [|k0 missing] eqn:Hf.
  - split.
    + apply forallb_forall. intros k Hk.
      destruct (has_column (columns df) k) eqn:Hc; [reflexivity|].
      assert (In k (List.filter (fun n => negb (has_column (columns df) n))
                                key_columns))
        as Hin by (apply filter_In; rewrite Hc; auto).
      rewrite Hf in Hin. destruct Hin.
    + unfold itertuples. cbn [rows columns]. rewrite map_map.
      apply map_ext. intros r. reflexivity.
  - split; [discriminate|]. intros k. rewrite <- Hf, filter_In, negb_true_iff.
    reflexivity.
Qed.

Lemma getitem_concat a b keys :
  getitem a key_columns = inr keys ->
  exists keys', getitem (concat a b) key_columns = inr keys'.
Proof.
  intros Ha. pose proof (getitem_key_columns a) as Hk. rewrite Ha in Hk.
  destruct Hk as [Hall _].
  pose proof (getitem_key_columns (concat a b)) as Hk'.
  destruct (getitem (concat a b) key_columns) as [missing|keys']; [|eauto].
  destruct Hk' as [Hne Hmiss]. destruct missing as [|k missing]; [congruence|].
  destruct (proj1 (Hmiss k) (or_introl eq_refl)) as [Hin Hno].
  rewrite forallb_forall in Hall.
  rewrite (has_column_concat a b k (Hall k Hin)) in Hno. discriminate.
Qed.

(** ** The grid *)

Lemma grid_no_dup_keys : no_dup_keys hyperparameter_combinations = true.
Proof. vm_compute. reflexivity. Qed.

(** C4. The enumeration of the six fixed axes is the list that six nested
    loops yield, the dropout axis innermost; it has 2*2*3*3*2*2 = 144
    tuples, no two of them equal (as values, and for Python's [==]), and
    its elements are exactly the tuples that take one value of each axis
    in order.  It is a constant of the script: it depends on no argument
    and on no state, so every invocation enumerates the same sequence. *)
Theorem enumeration_is_the_full_grid :
  axes = [[PyInt 1; PyInt 2]; [PyBool false; PyBool true];
          [PyInt 16; PyInt 32; PyInt 64]; [PyInt 128; PyInt 256; PyInt 512];
          [PyFloat float_0_0001; PyFloat float_0_001];
          [PyFloat float_0_2; PyFloat float_0_4]]
  /\ hyperparameter_combinations =
       flat_map (fun nl =>
       flat_map (fun bi =>
       flat_map (fun ls =>
       flat_map (fun bs =>
       flat_map (fun lr =>
       map (fun dr => [nl; bi; ls; bs; lr; dr]) dropout_lst)
         learning_rate_lst) batch_size_lst) LSTM_size_lst)
         bidirectional_lst) num_layers_lst
  /\ length hyperparameter_combinations = (2 * 2 * 3 * 3 * 2 * 2)%nat
  /\ length hyperparameter_combinations = 144%nat
  /\ List.NoDup hyperparameter_combinations
  /\ no_dup_keys hyperparameter_combinations = true
  /\ (forall c, In c hyperparameter_combinations <->
                Forall2 (fun x pool => In x pool) c axes).
Proof.
  split; [reflexivity|].
  split; [vm_compute; reflexivity|].
  split.
  { unfold hyperparameter_combinations. rewrite length_product. reflexivity. }
  split.
  { unfold hyperparameter_combinations. rewrite length_product. reflexivity. }
  split.
  { apply NoDup_product. apply List.Forall_forall. intros pool Hpool.
    repeat (destruct Hpool as [<- | Hpool]); [..|destruct Hpool];
      repeat (apply List.NoDup_cons; [cbn; intuition discriminate|]);
      apply List.NoDup_nil. }
  split; [exact grid_no_dup_keys|].
  intros c. apply in_product.
Qed.

(** Every tuple of the grid equals itself: none holds a NaN. *)
Lemma grid_tuples_reflexive c :
  In c hyperparameter_combinations -> tuple_eqb c c = true.
Proof.
  assert (H : forallb (fun c => tuple_eqb c c) hyperparameter_combinations
              = true) by (vm_compute; reflexivity).
  rewrite forallb_forall in H. apply H.
Qed.


(** ** Properties of the sweep *)

Section SweepProperties.

Context {data model E csv W : Type} {L : Libraries data model E csv W}.

Local Abbreviation state := (state data model E csv W).
Local Abbreviation event := (event data model E).

(** *** Reading a trace *)

Lemma steps_app (tr1 tr2 : list event) :
  steps (tr1 ++ tr2) = steps tr1 ++ steps tr2.
Proof.
  induction tr1 as [|[] tr1 IH]; cbn; rewrite ?IH; reflexivity.
Qed.

Lemma collaborator_calls_app (tr1 tr2 : list event) :
  collaborator_calls (tr1 ++ tr2)
  = collaborator_calls tr1 ++ collaborator_calls tr2.
Proof.
  induction tr1 as [|[] tr1 IH]; cbn; rewrite ?IH; reflexivity.
Qed.

Lemma training_calls_app (tr1 tr2 : list event) :
  training_calls (tr1 ++ tr2) = training_calls tr1 ++ training_calls tr2.
Proof.
  induction tr1 as [|[] tr1 IH]; cbn; rewrite ?IH; reflexivity.
Qed.

Lemma flushes_app (tr1 tr2 : list event) :
  flushes (tr1 ++ tr2) = flushes tr1 ++ flushes tr2.
Proof.
  induction tr1 as [|[] tr1 IH]; cbn; rewrite ?IH; reflexivity.
Qed.

Lemma prepare_calls_app (tr1 tr2 : list event) :
  prepare_calls (tr1 ++ tr2) = (prepare_calls tr1 + prepare_calls tr2)%nat.
Proof.
  induction tr1 as [|[] tr1 IH]; cbn; rewrite ?IH; reflexivity.
Qed.

Lemma row_key_it_record (i : iteration model) :
  row_key (it_record i) = it_combination i.
Proof. reflexivity. Qed.

Lemma map_row_key_it_record (its : list (iteration model)) :
  map row_key (map it_record its) = map it_combination its.
Proof. rewrite map_map. apply map_ext. intros i. apply row_key_it_record. Qed.

Lemma train_key_it_train_args (d : prep_data data) (i : iteration model) :
  train_key (it_train_args d i) = it_combination i.
Proof. reflexivity. Qed.

Lemma steps_iterations (d : prep_data data) existing path
    (its : list (iteration model)) :
  forall acc,
    steps (iterations_events (E := E) d existing path acc its)
    = completed_steps existing path acc (map it_record its).
Proof.
  induction its as [|i its IH]; intros acc;
    cbn [iterations_events map steps completed_steps]; [reflexivity|].
  rewrite IH. reflexivity.
Qed.

Lemma collaborator_calls_iterations (d : prep_data data) existing path
    (its : list (iteration model)) :
  forall acc,
    collaborator_calls (iterations_events (E := E) d existing path acc its)
    = calls_for (map it_combination its).
Proof.
  induction its as [|i its IH]; intros acc; [reflexivity|].
  cbn [iterations_events collaborator_calls map calls_for flat_map app].
  rewrite IH. reflexivity.
Qed.

Lemma training_calls_iterations (d : prep_data data) existing path
    (its : list (iteration model)) :
  forall acc,
    training_calls (iterations_events (E := E) d existing path acc its)
    = map (it_train_args d) its.
Proof.
  induction its as [|i its IH]; intros acc; [reflexivity|].
  cbn [iterations_events training_calls map]. rewrite IH. reflexivity.
Qed.

Lemma flushes_iterations (d : prep_data data) existing path
    (its : list (iteration model)) :
  forall acc,
    flushes (iterations_events (E := E) d existing path acc its)
    = map (fun k => (path, concat existing
                       (DataFrame_records (acc ++ take k (map it_record its)))))
          (seq 1 (length its)).
Proof.
  induction its as [|i its IH]; intros acc; [reflexivity|].
  cbn [iterations_events flushes map length seq]. rewrite IH.
  f_equal. rewrite <- (seq_shift (length its) 1), map_map.
  apply map_ext. intros k.
  cbn [take firstn]. rewrite <- app_assoc. reflexivity.
Qed.

Lemma prepare_calls_iterations (d : prep_data data) existing path
    (its : list (iteration model)) :
  forall acc,
    prepare_calls (iterations_events (E := E) d existing path acc its) = O.
Proof.
  induction its as [|i its IH]; intros acc; [reflexivity|].
  cbn [iterations_events prepare_calls]. apply IH.
Qed.

Lemma uses_prepared_iterations (d : prep_data data) existing path
    (its : list (iteration model)) :
  forall acc,
    Forall (uses_prepared d)
           (iterations_events (E := E) d existing path acc its).
Proof.
  induction its as [|i its IH]; intros acc; cbn [iterations_events];
    [constructor|].
  repeat (constructor; [cbn; repeat split; reflexivity|]). apply IH.
Qed.

(** *** The loop *)

Lemma loop_outcome_cons (d : prep_data data) (i : iteration model) rest acc its
    (tail : list event) (res : result E (list dict)) :
  loop_outcome d rest (acc ++ [it_record i]) its tail res ->
  loop_outcome d (it_combination i :: rest) acc (i :: its) tail res.
Proof.
  intros H. inversion H; subst; clear H.
  - replace ((acc ++ [it_record i]) ++ map it_record its)
      with (acc ++ map it_record (i :: its))
      by (simpl; rewrite <- app_assoc; reflexivity).
    apply loop_finished. reflexivity.
  - eapply loop_unpack_failed; [reflexivity | assumption].
  - eapply loop_training_failed. reflexivity.
  - eapply loop_forward_failed. reflexivity.
  - eapply loop_metric_failed. reflexivity.
Qed.

(** One pass of the loop body on a well-formed combination. *)
Lemma for_combinations_step (d : prep_data data) existing path
    nl bi ls bs lr dr rest acc (st : state) :
  for_combinations d existing path (tuple6 nl bi ls bs lr dr :: rest) acc st =
  let a := sweep_train_args d nl bi ls bs lr dr in
  let tr1 := trace st ++ [Train a] in
  match train_and_return_LSTM a (world st) with
  | (inl e, w1) =>
      (Raise (TrainingError e),
       mkState w1 (files st) (tr1 ++ [Raised (TrainingError e)]))
  | (inr m, w1) =>
      let tr2 := tr1 ++ [Evaluate m (X_val d) (y_val d) (seq_len_val d)] in
      match forward m (X_val d) (seq_len_val d) w1 with
      | (inl e, w2) =>
          (Raise (ForwardError e),
           mkState w2 (files st) (tr2 ++ [Raised (ForwardError e)]))
      | (inr out, w2) =>
          match roc_auc_score (y_val d) out with
          | inl e =>
              (Raise (MetricError e),
               mkState w2 (files st) (tr2 ++ [Raised (MetricError e)]))
          | inr auc =>
              let acc' := acc ++ [result_record nl bi ls bs lr dr auc] in
              let df := concat existing (DataFrame_records acc') in
              for_combinations d existing path rest acc'
                (mkState w2 (<[path := to_csv df]> (files st))
                         (tr2 ++ [ToCsv path df]))
          end
      end
  end.
Proof.
  cbn [for_combinations tuple6].
  unfold bind at 1. unfold initialize_model, bind at 1, emit, call. cbn.
  fold (sweep_train_args d nl bi ls bs lr dr).
  destruct (train_and_return_LSTM _ (world st)) as [[e|m] w1]; [reflexivity|].
  unfold ret at 1. unfold bind at 1.
  unfold evaluate_model, bind at 1, bind at 1, emit, call. cbn.
  destruct (forward m _ _ w1) as [[e|out] w2]; [reflexivity|].
  unfold ret at 1.
  destruct (roc_auc_score _ out) as [e|auc]; reflexivity.
Qed.

(** The loop, whatever the libraries do: some passes complete, each
    leaving its three events and its flush, and then the loop either
    returns the accumulated records or stops at the pass that raised. *)
Lemma for_combinations_spec (d : prep_data data) existing path combs :
  forall acc (st : state) res st',
    for_combinations d existing path combs acc st = (res, st') ->
    exists its tail,
      trace st' = trace st ++ iterations_events d existing path acc its ++ tail
      /\ files st' =
           match its with
           | [] => files st
           | _ => <[path := to_csv (concat existing
                     (DataFrame_records (acc ++ map it_record its)))]>
                    (files st)
           end
      /\ loop_outcome d combs acc its tail res.
Proof.
  induction combs as [|c rest IH]; intros acc st res st' Hrun.
  - cbn in Hrun. injection Hrun as <- <-.
    exists [], []. cbn. rewrite !app_nil_r. split; [reflexivity|].
    split; [reflexivity|].
    rewrite <- (app_nil_r acc) at 2. apply loop_finished. reflexivity.
  - destruct c as [|nl [|bi [|ls [|bs [|lr [|dr [|x c]]]]]]];
      try (cbn in Hrun; injection Hrun as <- <-;
           eexists [], [_]; cbn;
           split; [reflexivity|]; split; [reflexivity|];
           eapply loop_unpack_failed; [reflexivity | cbn; lia]).
    change [nl; bi; ls; bs; lr; dr] with (tuple6 nl bi ls bs lr dr) in Hrun.
    rewrite for_combinations_step in Hrun. cbn zeta in Hrun.
    destruct (train_and_return_LSTM _ (world st)) as [[e|m] w1].
    { injection Hrun as <- <-. eexists [], [_; _].
      cbn. rewrite <- app_assoc. split; [reflexivity|]. split; [reflexivity|].
      eapply loop_training_failed. reflexivity. }
    destruct (forward m _ _ w1) as [[e|out] w2].
    { injection Hrun as <- <-. eexists [], [_; _; _].
      cbn. rewrite <- !app_assoc. split; [reflexivity|]. split; [reflexivity|].
      eapply loop_forward_failed. reflexivity. }
    destruct (roc_auc_score _ out) as [e|auc].
    { injection Hrun as <- <-. eexists [], [_; _; _].
      cbn. rewrite <- !app_assoc. split; [reflexivity|]. split; [reflexivity|].
      eapply loop_metric_failed. reflexivity. }
    apply IH in Hrun as (its & tail & Htr & Hfs & Hout). cbn in Htr, Hfs.
    set (i := mkIteration nl bi ls bs lr dr m auc).
    exists (i :: its), tail. split; [|split].
    + rewrite Htr. cbn. rewrite <- !app_assoc. reflexivity.
    + rewrite Hfs. cbn [map]. destruct its as [|j its].
      * cbn. reflexivity.
      * rewrite insert_insert_eq. rewrite <- app_assoc. reflexivity.
    + apply (loop_outcome_cons d i). exact Hout.
Qed.

Lemma load_results_run path (st : state) :
  load_results path st =
  (load_outcome (files st) path,
   match load_outcome (files st) path with
   | Ok _ => st
   | Raise e => mkState (world st) (files st) (trace st ++ [Raised e])
   end).
Proof.
  unfold load_results, load_outcome, bind, os_path_exists, pd_read_csv.
  destruct (files st !! path) as [c|] eqn:Hc.
  - rewrite bool_decide_eq_true_2 by eauto. rewrite Hc.
    destruct (read_csv c) as [e|df]; [reflexivity|]. cbn.
    destruct (getitem df key_columns); reflexivity.
  - rewrite bool_decide_eq_false_2 by (intros [? ?]; discriminate).
    reflexivity.
Qed.

(** Every run has one of the four shapes. *)
Lemma sweep_spec ds ln mpl add w (fs : gmap string csv) res (st' : state) :
  sweep ds ln mpl add w fs = (res, st') ->
  sweep_shape ds ln mpl add w fs res st'.
Proof.
  unfold sweep, run_hyper. unfold bind at 1.
  unfold prepare_full_prep, bind at 1, emit, call. cbn [world files trace app].
  destruct (full_prep ds ln mpl false "case:gender" w) as [[e|d] w1] eqn:Hprep.
  { intros [= <- <-]. apply shape_preprocessing_failed. exact Hprep. }
  unfold ret at 1. unfold bind at 1. rewrite load_results_run. cbn [files].
  destruct (load_outcome fs _) as [[existing completed]|e] eqn:Hload.
  2:{ intros [= <- <-]. eapply shape_load_failed; eassumption. }
  cbn [fst snd]. unfold bind at 1.
  assert (Hpend : List.filter (fun comb => negb (py_in comb completed))
                    hyperparameter_combinations
                  = pending fs (results_path_of ln add)).
  { unfold pending, completed_set. rewrite Hload. reflexivity. }
  rewrite Hpend.
  destruct (for_combinations _ _ _ _ _ _) as [lres st1] eqn:Hloop.
  apply for_combinations_spec in Hloop as (its & tail & Htr & Hfs & Hout).
  destruct st1 as [w2 fs2 tr2]. cbn [trace files world] in Htr, Hfs.
  subst fs2 tr2.
  destruct lres as [recs|e].
  - inversion Hout; subst.
    unfold df_to_csv, bind, emit, ret. cbn [trace files world app].
    intros [= <- <-].
    rewrite app_nil_r.
    replace (<[results_path_of ln add:=_]> match its with [] => fs | _ => _ end)
      with (<[results_path_of ln add :=
                to_csv (concat existing
                          (DataFrame_records (map it_record its)))]> fs)
      by (destruct its; [reflexivity | rewrite insert_insert_eq; reflexivity]).
    eapply shape_completed; eassumption.
  - intros [= <- <-]. cbn [app].
    eapply shape_loop_failed; eassumption.
Qed.

(** *** What the resume filter reads *)

Lemma load_outcome_keys (fs : gmap string csv) path existing completed :
  load_outcome fs path = Ok (existing, completed) ->
  stored_rows fs path = rows existing /\
  completed_set fs path = completed /\
  completed = map row_key (rows existing) /\
  forallb (has_column (columns existing)) key_columns = true.
Proof.
  intros Hload. unfold stored_rows, completed_set. rewrite Hload.
  split; [reflexivity|]. split; [reflexivity|].
  unfold load_outcome in Hload.
  destruct (fs !! path) as [c|].
  - destruct (read_csv c) as [e|df]; [discriminate|].
    pose proof (getitem_key_columns df) as Hk.
    destruct (getitem df key_columns) as [missing|keys]; [discriminate|].
    injection Hload as <- <-. destruct Hk as [Hall Hit]. auto.
  - injection Hload as <- <-. split; reflexivity.
Qed.

Lemma completed_set_keys (fs : gmap string csv) path :
  completed_set fs path = map row_key (stored_rows fs path).
Proof.
  destruct (load_outcome fs path) as [[existing completed]|e] eqn:Hload.
  - apply load_outcome_keys in Hload as (-> & -> & -> & _). reflexivity.
  - unfold completed_set, stored_rows. rewrite Hload. reflexivity.
Qed.

Lemma calls_for_app l1 l2 : calls_for (l1 ++ l2) = calls_for l1 ++ calls_for l2.
Proof. apply flat_map_app. Qed.

(** Case analysis on a run, and on the way its loop ended. *)
Ltac invert_sweep H :=
  apply sweep_spec in H; inversion H; subst; clear H;
  repeat match goal with p := _ |- _ => subst p end.

Ltac invert_loop :=
  match goal with
  | H : loop_outcome _ _ _ _ _ _ |- _ =>
      inversion H; subst; clear H;
      try match goal with Heq : pending _ _ = _ |- _ => rewrite Heq in * end
  end.

(** *** The claims *)

(** C1. In every invocation the training and evaluation calls are made
    for the pending combinations and for no other: the pending list is the
    enumeration, in its order, without the tuples that equal (elementwise,
    with Python's [==]) the six hyperparameter cells of some stored row,
    whatever the score of that row; the calls of a run are a prefix of
    one training followed by one evaluation per pending combination, and
    all of them when the run returns. *)
Theorem resume_filter_runs_pending ds ln mpl add w (fs : gmap string csv)
    res (st' : state) :
  sweep ds ln mpl add w fs = (res, st') ->
  let path := results_path_of ln add in
  pending fs path =
    List.filter
      (fun c => negb (existsb (fun r => tuple_eqb (row_key r) c)
                              (stored_rows fs path)))
      hyperparameter_combinations
  /\ (exists later,
        calls_for (pending fs path) = collaborator_calls (trace st') ++ later)
  /\ (forall df, res = Ok df ->
        collaborator_calls (trace st') = calls_for (pending fs path)).
Proof.
  intros Hrun path. split.
  { unfold pending. rewrite completed_set_keys. apply filter_ext.
    intros c. unfold py_in. f_equal.
    induction (stored_rows fs path) as [|r rs IH]; cbn; [reflexivity|].
    rewrite IH. reflexivity. }
  invert_sweep Hrun.
  - split; [eexists; reflexivity | discriminate].
  - split; [eexists; reflexivity | discriminate].
  - split; [|discriminate].
    cbn [trace collaborator_calls]. rewrite collaborator_calls_app.
    rewrite collaborator_calls_iterations.
    invert_loop; rewrite calls_for_app;
      cbn [collaborator_calls calls_for flat_map train_key sweep_train_args
           kw_num_lstm kw_bidirectional kw_lstm_size kw_batch_size
           kw_learning_rate kw_dropout];
      eexists; rewrite <- ?app_assoc; cbn [app]; f_equal; reflexivity.
  - split.
    + exists []. rewrite app_nil_r. cbn [trace collaborator_calls].
      rewrite collaborator_calls_app, collaborator_calls_iterations.
      cbn. rewrite app_nil_r. congruence.
    + intros df _. cbn [trace collaborator_calls].
      rewrite collaborator_calls_app, collaborator_calls_iterations.
      cbn. rewrite app_nil_r. congruence.
Qed.

Lemma no_raise_in_iterations (d : prep_data data) existing path
    (its : list (iteration model)) (e : exn E) :
  forall acc, ~ In (Raised e) (iterations_events d existing path acc its).
Proof.
  induction its as [|i its IH]; intros acc; cbn [iterations_events].
  - intros [].
  - intros [H | [H | [H | H]]]; try discriminate. exact (IH _ H).
Qed.

Lemma load_outcome_raises (fs : gmap string csv) path e :
  load_outcome fs path = Raise e ->
  is_parse_error e = true /\
  exists c, fs !! path = Some c /\
    ((exists e0, read_csv c = inl e0 /\ e = ReadCsvError e0) \/
     (exists df missing,
        read_csv c = inr df /\ e = KeyError missing /\ missing <> [] /\
        forall k, In k missing <->
                  In k key_columns /\ has_column (columns df) k = false)).
Proof.
  unfold load_outcome. destruct (fs !! path) as [c|]; [|discriminate].
  destruct (read_csv c) as [e0|df] eqn:Hread.
  - intros [= <-]. split; [reflexivity|]. exists c. split; [reflexivity|].
    left. eauto.
  - pose proof (getitem_key_columns df) as Hk.
    destruct (getitem df key_columns) as [missing|keys]; [|discriminate].
    intros [= <-]. split; [reflexivity|]. exists c. split; [reflexivity|].
    right. exists df, missing. destruct Hk. auto.
Qed.

(** C8. Preprocessing is called once in every invocation, as the first
    thing the run does and so before the loop, however many combinations
    are pending; every training call gets the data and the resolved
    prefix length that this one call returned, and every evaluation its
    validation data. *)
Theorem preprocessing_runs_once ds ln mpl add w (fs : gmap string csv)
    res (st' : state) :
  sweep ds ln mpl add w fs = (res, st') ->
  (exists tr, trace st' = Prepare ds ln mpl false "case:gender" :: tr
              /\ prepare_calls tr = O)
  /\ prepare_calls (trace st') = 1%nat
  /\ (forall d w1,
        full_prep ds ln mpl false "case:gender" w = (inr d, w1) ->
        Forall (uses_prepared d) (trace st')).
Proof.
  intros Hrun. invert_sweep Hrun; cbn [trace prepare_calls].
  - split; [eexists; split; reflexivity|]. split; [reflexivity|].
    intros d w' Hd. congruence.
  - split; [eexists; split; reflexivity|]. split; [reflexivity|].
    intros d' w' Hd. repeat constructor.
  - assert (Htail : prepare_calls tail = O /\ Forall (uses_prepared d) tail).
    { invert_loop; split; try reflexivity;
        repeat (constructor; [cbn; repeat split; reflexivity|]); constructor. }
    destruct Htail as [Hp Hu].
    rewrite prepare_calls_app, prepare_calls_iterations, Hp.
    split; [eexists; split; [reflexivity|]|].
    { rewrite prepare_calls_app, prepare_calls_iterations, Hp. reflexivity. }
    split; [reflexivity|].
    intros d' w' Hd. assert (d' = d) as -> by congruence.
    constructor; [exact I|]. apply Forall_app. split; [|exact Hu].
    apply uses_prepared_iterations.
  - rewrite prepare_calls_app, prepare_calls_iterations.
    split; [eexists; split; [reflexivity|]|].
    { rewrite prepare_calls_app, prepare_calls_iterations. reflexivity. }
    split; [reflexivity|].
    intros d' w' Hd. assert (d' = d) as -> by congruence.
    constructor; [exact I|]. apply Forall_app. split.
    + apply uses_prepared_iterations.
    + repeat constructor.
Qed.

(** C10. Every training call of every run is made with the loss 'BCE',
    at most 300 epochs, patience 20 and no history, and with the prefix
    length that preprocessing resolved. *)
Theorem training_configuration_is_fixed ds ln mpl add w
    (fs : gmap string csv) res (st' : state) a :
  sweep ds ln mpl add w fs = (res, st') ->
  In a (training_calls (trace st')) ->
  fixed_configuration a
  /\ exists d w1,
       full_prep ds ln mpl false "case:gender" w = (inr d, w1)
       /\ kw_max_length a = new_max_prefix_len d.
Proof.
  intros Hrun. invert_sweep Hrun; cbn [trace training_calls];
    try (intros []); rewrite training_calls_app, training_calls_iterations;
    intros Hin; apply in_app_or in Hin as [Hin | Hin].
  - apply in_map_iff in Hin as (i & <- & _).
    split; [repeat split|]. eauto.
  - invert_loop; cbn in Hin; try contradiction; destruct Hin as [<- | []];
      (split; [repeat split | eauto]).
  - apply in_map_iff in Hin as (i & <- & _).
    split; [repeat split|]. eauto.
  - destruct Hin.
Qed.

(** C9. A run that gets through its loop ends with one more write of the
    earlier frame followed by all the new records, also when nothing was
    pending, and returns that frame: it is the last thing written and the
    content of the file at the end. *)
Theorem final_flush_returns_all_results ds ln mpl add w
    (fs : gmap string csv) df (st' : state) :
  sweep ds ln mpl add w fs = (Ok df, st') ->
  let path := results_path_of ln add in
  (exists existing completed recs,
     load_outcome fs path = Ok (existing, completed)
     /\ df = concat existing (DataFrame_records recs)
     /\ map row_key recs = pending fs path
     /\ rows df = stored_rows fs path ++ recs)
  /\ (exists tr, trace st' = tr ++ [ToCsv path df])
  /\ last (flushes (trace st')) = Some (path, df)
  /\ length (flushes (trace st')) = S (length (pending fs path))
  /\ files st' !! path = Some (to_csv df).
Proof.
  intros Hrun path. invert_sweep Hrun. cbn [trace files flushes].
  match goal with H : load_outcome _ _ = Ok _ |- _ =>
    pose proof (load_outcome_keys _ _ _ _ H) as (Hrows & _ & _ & _) end.
  split.
  { exists existing, completed, (map it_record its).
    split; [assumption|]. split; [reflexivity|].
    split; [rewrite map_row_key_it_record; assumption|].
    rewrite rows_concat, rows_DataFrame_records, Hrows. reflexivity. }
  split; [eexists (_ :: _); reflexivity|].
  rewrite flushes_app. cbn [flushes].
  split; [apply last_snoc|].
  split.
  - rewrite length_app, flushes_iterations, length_map, length_seq.
    match goal with H : map it_combination _ = _ |- _ => rewrite <- H end.
    rewrite length_map. cbn. lia.
  - apply lookup_insert_eq.
Qed.

(** C2. Each combination that completes is followed by a write of the
    result file whose rows are the rows found at the start, in their
    order, followed by the records computed so far in this run, in the
    order of the enumeration: so a record written once is written again,
    unchanged and at the same place, by every later write.  A run that
    returns ends with the write of all of them; a run that raises writes
    nothing after its last completed combination. *)
Theorem flushes_hold_existing_then_new ds ln mpl add w
    (fs : gmap string csv) res (st' : state) existing completed :
  sweep ds ln mpl add w fs = (res, st') ->
  let path := results_path_of ln add in
  load_outcome fs path = Ok (existing, completed) ->
  (forall recs,
     rows (concat existing (DataFrame_records recs))
     = stored_rows fs path ++ recs)
  /\ exists recs tail,
       steps (trace st') = completed_steps existing path [] recs ++ tail
       /\ map row_key recs = take (length recs) (pending fs path)
       /\ (forall df, res = Ok df ->
             map row_key recs = pending fs path
             /\ tail = [Writes path df]
             /\ df = concat existing (DataFrame_records recs))
       /\ (forall e, res = Raise e ->
             forall p df, ~ In (Writes p df) tail).
Proof.
  intros Hrun path Hload.
  pose proof (load_outcome_keys _ _ _ _ Hload) as (Hrows & _ & _ & _).
  split.
  { intros recs. rewrite rows_concat, rows_DataFrame_records, Hrows.
    reflexivity. }
  invert_sweep Hrun; cbn [trace steps].
  - exists [], []. repeat split; try discriminate. intros e' _ p df [].
  - exists [], []. repeat split; try discriminate. intros e' _ p df [].
  - assert (existing0 = existing) as -> by congruence.
    exists (map it_record its), (steps tail).
    rewrite steps_app, steps_iterations. split; [reflexivity|].
    rewrite map_row_key_it_record, length_map.
    split; [|split; [discriminate|]].
    + invert_loop; rewrite <- (length_map it_combination);
        symmetry; apply take_app_length.
    + intros e' _ p df. invert_loop; cbn; intuition discriminate.
  - assert (existing0 = existing) as -> by congruence.
    exists (map it_record its), [Writes (results_path_of ln add)
      (concat existing (DataFrame_records (map it_record its)))].
    rewrite steps_app, steps_iterations. split; [reflexivity|].
    rewrite map_row_key_it_record, length_map.
    match goal with H : map it_combination _ = _ |- _ => rewrite <- H end.
    split.
    { rewrite <- (length_map it_combination). symmetry. apply firstn_all. }
    split; [|discriminate].
    intros df [= <-]. repeat split.
Qed.

(** C3. An exception raised inside training or evaluation is the last
    event of the run and the exception the run ends with: nothing handles
    it.  It is raised at some pending combination; the combinations
    before it have completed, and the result file then holds the rows
    found at the start followed by their records, and no record of the
    combination that failed; if none completed, the file was not
    written at all. *)
Theorem collaborator_failure_halts_sweep ds ln mpl add w
    (fs : gmap string csv) res (st' : state) e :
  sweep ds ln mpl add w fs = (res, st') ->
  In (Raised e) (trace st') ->
  is_collaborator_failure e = true ->
  let path := results_path_of ln add in
  res = Raise e
  /\ (exists tr, trace st' = tr ++ [Raised e])
  /\ exists existing completed recs c,
       load_outcome fs path = Ok (existing, completed)
       /\ pending fs path !! length recs = Some c
       /\ map row_key recs = take (length recs) (pending fs path)
       /\ (steps (trace st')
             = completed_steps existing path [] recs ++ [Trains c]
           \/ steps (trace st')
             = completed_steps existing path [] recs ++ [Trains c; Evaluates])
       /\ files st' !! path =
            match recs with
            | [] => fs !! path
            | _ => Some (to_csv (concat existing (DataFrame_records recs)))
            end
       /\ rows (concat existing (DataFrame_records recs))
          = stored_rows fs path ++ recs.
Proof.
  intros Hrun Hin Hfail path. invert_sweep Hrun; cbn [trace] in *.
  - destruct Hin as [|[[= <-]|[]]]; discriminate.
  - destruct Hin as [|[[= ->]|[]]]; try discriminate.
    match goal with H : load_outcome _ _ = Raise _ |- _ =>
      apply load_outcome_raises in H as [Hp _] end.
    destruct e; discriminate.
  - destruct Hin as [|Hin]; [discriminate|].
    apply in_app_or in Hin as [Hin | Hin];
      [exfalso; exact (no_raise_in_iterations _ _ _ _ _ _ Hin)|].
    match goal with H : load_outcome _ _ = Ok _ |- _ =>
      pose proof (load_outcome_keys _ _ _ _ H) as (Hrows & _ & _ & _) end.
    invert_loop; cbn in Hin;
      repeat (destruct Hin as [Hin | Hin]; try discriminate);
      try contradiction; injection Hin as <-; try discriminate;
      (split; [reflexivity|]);
      (split;
       [first [eexists (_ :: _ ++ [_]); cbn [app]; rewrite <- app_assoc;
               reflexivity
              |eexists (_ :: _ ++ [_; _]); cbn [app]; rewrite <- app_assoc;
               reflexivity]|]);
      exists existing, completed, (map it_record its);
      eexists; cbn [steps];
      rewrite map_row_key_it_record, !length_map, steps_app, steps_iterations,
        rows_concat, rows_DataFrame_records, Hrows;
      (split; [eassumption|]);
      (split; [apply list_lookup_middle; rewrite length_map; reflexivity|]);
      (split; [rewrite <- (length_map it_combination); symmetry;
               apply take_app_length|]);
      (split; [cbn; auto|]);
      (split; [|reflexivity]);
      (destruct its; cbn [map]; [reflexivity | apply lookup_insert_eq]).
  - exfalso. destruct Hin as [|Hin]; [discriminate|].
    apply in_app_or in Hin as [Hin | [|[]]]; [|discriminate].
    exact (no_raise_in_iterations _ _ _ _ _ _ Hin).
Qed.

(** C5. Loading the result file: an absent file gives the empty frame
    and the empty completed set and raises nothing; loading raises only
    when the file exists and either cannot be parsed or lacks one of the
    six hyperparameter columns, and what it raises is a parse error; and
    when the file exists, parses, and lacks such a column, the run makes
    no training or evaluation call and writes nothing: unless
    preprocessing itself raised, it ends with the parse error, raised
    right after preprocessing. *)
Theorem loading_fails_only_on_malformed_file ds ln mpl add w
    (fs : gmap string csv) res (st' : state) :
  sweep ds ln mpl add w fs = (res, st') ->
  let path := results_path_of ln add in
  (fs !! path = None ->
   forall st : state, files st = fs ->
     load_results path st = (Ok (DataFrame_columns result_columns, []), st))
  /\ (forall (st st1 : state) e,
        files st = fs -> load_results path st = (Raise e, st1) ->
        is_parse_error e = true
        /\ exists c, fs !! path = Some c
           /\ ((exists e0, read_csv c = inl e0)
               \/ (exists df k, read_csv c = inr df /\ In k key_columns
                                /\ has_column (columns df) k = false)))
  /\ (forall c df k,
        fs !! path = Some c -> read_csv c = inr df ->
        In k key_columns -> has_column (columns df) k = false ->
        collaborator_calls (trace st') = []
        /\ flushes (trace st') = []
        /\ files st' = fs
        /\ ((exists e0, res = Raise (PreprocessingError e0))
            \/ (exists missing,
                  res = Raise (KeyError missing) /\ In k missing
                  /\ is_parse_error (KeyError (E := E) missing) = true
                  /\ trace st' = [Prepare ds ln mpl false "case:gender";
                                  Raised (KeyError missing)]))).
Proof.
  intros Hrun path. split; [|split].
  - intros Hnone st <-. rewrite load_results_run.
    unfold load_outcome. fold path. rewrite Hnone. reflexivity.
  - intros st st1 e <-. rewrite load_results_run. intros [= Hload _].
    apply load_outcome_raises in Hload as (Hp & c & Hc & Hwhy).
    split; [exact Hp|]. exists c. split; [exact Hc|].
    destruct Hwhy as [(e0 & He0 & _) | (df & missing & Hdf & _ & Hne & Hmiss)].
    + left. eauto.
    + right. destruct missing as [|k missing]; [congruence|].
      exists df, k. split; [exact Hdf|]. apply Hmiss. now left.
  - intros c df k Hc Hdf Hk Hno.
    assert (Hload : exists missing,
               load_outcome fs path = Raise (KeyError missing) /\ In k missing).
    { unfold load_outcome. rewrite Hc, Hdf.
      pose proof (getitem_key_columns df) as Hg.
      destruct (getitem df key_columns) as [missing|keys].
      - exists missing. split; [reflexivity|]. apply Hg. auto.
      - destruct Hg as [Hall _]. rewrite forallb_forall in Hall.
        rewrite (Hall k Hk) in Hno. discriminate. }
    destruct Hload as (missing & Hload & Hin).
    invert_sweep Hrun.
    + repeat split. left. eauto.
    + repeat split. right. exists missing.
      assert (e = KeyError missing) as -> by congruence. auto.
    + congruence.
    + congruence.
Qed.

Lemma filter_none {A} (f : A -> bool) l :
  (forall x, In x l -> f x = false) -> List.filter f l = [].
Proof.
  induction l as [|x l IH]; intros H; cbn; [reflexivity|].
  rewrite (H x (or_introl eq_refl)). apply IH. intros y Hy. apply H. now right.
Qed.

Lemma filter_all {A} (f : A -> bool) l :
  (forall x, In x l -> f x = true) -> List.filter f l = l.
Proof.
  induction l as [|x l IH]; intros H; cbn; [reflexivity|].
  rewrite (H x (or_introl eq_refl)). f_equal. apply IH.
  intros y Hy. apply H. now right.
Qed.

(** The keys in the final frame of a completed run: those found at the
    start, then the pending combinations. *)
Lemma completed_run_keys (fs : gmap string csv) path existing completed
    (its : list (iteration model)) :
  load_outcome fs path = Ok (existing, completed) ->
  map it_combination its = pending fs path ->
  map row_key (rows (concat existing (DataFrame_records (map it_record its))))
  = completed_set fs path ++ pending fs path.
Proof.
  intros Hload Hits.
  apply load_outcome_keys in Hload as (_ & -> & -> & _).
  rewrite rows_concat, rows_DataFrame_records, map_app, map_row_key_it_record.
  congruence.
Qed.

Lemma grid_is_covered (fs : gmap string csv) path c :
  In c hyperparameter_combinations ->
  py_in c (completed_set fs path ++ pending fs path) = true.
Proof.
  intros Hc. rewrite py_in_app.
  destruct (py_in c (completed_set fs path)) eqn:Hdone; [reflexivity|].
  cbn. apply py_in_true. exists c. split.
  - unfold pending. apply filter_In. rewrite Hdone. auto.
  - apply grid_tuples_reflexive. exact Hc.
Qed.

(** Reading back the frame a completed run wrote. *)
Lemma load_outcome_after_write (fs : gmap string csv) path existing b :
  forallb (has_column (columns existing)) key_columns = true ->
  read_csv (to_csv (concat existing b)) = inr (concat existing b) ->
  load_outcome (<[path := to_csv (concat existing b)]> fs) path
  = Ok (concat existing b, map row_key (rows (concat existing b))).
Proof.
  intros Hall Hread. unfold load_outcome.
  rewrite lookup_insert_eq, Hread.
  pose proof (getitem_key_columns (concat existing b)) as Hg.
  destruct (getitem (concat existing b) key_columns) as [missing|keys].
  - destruct Hg as [Hne Hmiss]. destruct missing as [|k missing]; [congruence|].
    destruct (proj1 (Hmiss k) (or_introl eq_refl)) as [Hin Hno].
    rewrite forallb_forall in Hall.
    rewrite (has_column_concat existing b k (Hall k Hin)) in Hno. discriminate.
  - destruct Hg as [_ ->]. reflexivity.
Qed.



End SweepProperties.

(** ** The properties on concrete runs *)

Module Runs.

Import Demo.

Local Abbreviation dataset := "Datasets/lending_log_high.xes.gz".

(** The run from [three_left], with enough budget, splits into its value
    and its final state. *)
Ltac split_run r df :=
  let Hres := fresh "Hres" in
  assert (Hres : fst r = Ok df) by (vm_compute; reflexivity);
  assert (r = (Ok df, snd r)) by (rewrite <- Hres; apply surjective_pairing);
  clear Hres.

Lemma resume_filter_runs_pending_witness :
  run 200 0 three_left = (Ok (seeded 144), snd (run 200 0 three_left))
  /\ collaborator_calls (trace (snd (run 200 0 three_left)))
     = calls_for (skipn 141 hyperparameter_combinations).
Proof.
  split_run (run 200 0 three_left) (seeded 144).
  split; [assumption|].
  destruct (resume_filter_runs_pending (L := lib 200)
              dataset "lending" 6 "high" 0%nat three_left _ _ H)
    as (_ & _ & Hall).
  rewrite (Hall _ eq_refl). vm_compute. reflexivity.
Defined.

Lemma flushes_hold_existing_then_new_witness :
  run 200 0 three_left = (Ok (seeded 144), snd (run 200 0 three_left))
  /\ load_outcome (L := lib 200) three_left path
     = Ok (seeded 141, firstn 141 hyperparameter_combinations)
  /\ exists recs tail,
       steps (trace (snd (run 200 0 three_left)))
       = completed_steps (seeded 141) path [] recs ++ tail
       /\ map row_key recs = skipn 141 hyperparameter_combinations.
Proof.
  split_run (run 200 0 three_left) (seeded 144).
  assert (Hload : load_outcome (L := lib 200) three_left path
                  = Ok (seeded 141, firstn 141 hyperparameter_combinations))
    by (vm_compute; reflexivity).
  split; [assumption|]. split; [exact Hload|].
  destruct (flushes_hold_existing_then_new (L := lib 200)
              dataset "lending" 6 "high" 0%nat three_left _ _ _ _ H Hload)
    as (_ & recs & tail & Hsteps & _ & Hok & _).
  exists recs, tail. split; [exact Hsteps|].
  destruct (Hok _ eq_refl) as (-> & _). vm_compute. reflexivity.
Defined.

(** Training fails at the third of the four combinations left: the file
    then holds the records of the first 142 combinations. *)
Lemma collaborator_failure_halts_sweep_witness :
  let r := run 2 0 four_left in
  let e := TrainingError "out of memory" in
  r = (fst r, snd r)
  /\ In (Raised e) (trace (snd r))
  /\ is_collaborator_failure e = true
  /\ fst r = Raise e
  /\ (exists tr, trace (snd r) = tr ++ [Raised e])
  /\ files (snd r) !! path = Some (seeded 142).
Proof.
  intros r e.
  pose proof (surjective_pairing r) as H.
  assert (Hin : In (Raised e) (trace (snd r)))
    by (vm_compute; repeat (first [left; reflexivity | right])).
  split; [exact H|]. split; [exact Hin|]. split; [reflexivity|].
  destruct (collaborator_failure_halts_sweep (L := lib 2)
              dataset "lending" 6 "high" 0%nat four_left _ _ _ H Hin eq_refl)
    as (Hres & Hlast & _).
  split; [exact Hres|]. split; [exact Hlast|].
  vm_compute. reflexivity.
Defined.

Lemma loading_fails_only_on_malformed_file_witness :
  let r := run 200 0 malformed in
  let e := KeyError ["bidirectional"; "lstm_size"; "batch_size";
                     "learning_rate"; "dropout"] in
  r = (Raise e, snd r)
  /\ collaborator_calls (trace (snd r)) = []
  /\ files (snd r) = malformed.
Proof.
  intros r e.
  assert (Hres : fst r = Raise e) by (vm_compute; reflexivity).
  assert (H : r = (Raise e, snd r))
    by (rewrite <- Hres; apply surjective_pairing).
  split; [exact H|].
  destruct (loading_fails_only_on_malformed_file (L := lib 200)
              dataset "lending" 6 "high" 0%nat malformed _ _ H)
    as (_ & _ & Hmissing).
  destruct (Hmissing (mkFrame ["num_layers"; "auc_score"] [])
              (mkFrame ["num_layers"; "auc_score"] []) "dropout")
    as (Hcalls & _ & Hfiles & _).
  - vm_compute. reflexivity.
  - reflexivity.
  - cbn. tauto.
  - reflexivity.
  - split; assumption.
Defined.




Lemma preprocessing_runs_once_witness :
  run 200 0 three_left = (Ok (seeded 144), snd (run 200 0 three_left))
  /\ prepare_calls (trace (snd (run 200 0 three_left))) = 1%nat
  /\ Forall (uses_prepared demo_data) (trace (snd (run 200 0 three_left))).
Proof.
  split_run (run 200 0 three_left) (seeded 144).
  split; [assumption|].
  destruct (preprocessing_runs_once (L := lib 200)
              dataset "lending" 6 "high" 0%nat three_left _ _ H)
    as (_ & Honce & Hdata).
  split; [exact Honce|]. exact (Hdata demo_data 0%nat eq_refl).
Defined.

Lemma final_flush_returns_all_results_witness :
  run 200 0 three_left = (Ok (seeded 144), snd (run 200 0 three_left))
  /\ last (flushes (trace (snd (run 200 0 three_left))))
     = Some (path, seeded 144)
  /\ files (snd (run 200 0 three_left)) !! path = Some (seeded 144).
Proof.
  split_run (run 200 0 three_left) (seeded 144).
  split; [assumption|].
  destruct (final_flush_returns_all_results (L := lib 200)
              dataset "lending" 6 "high" 0%nat three_left _ _ H)
    as (_ & _ & Hlast & _ & Hfile).
  split; [exact Hlast | exact Hfile].
Defined.

Lemma training_configuration_is_fixed_witness :
  let a := sweep_train_args demo_data (PyInt 2) (PyBool true) (PyInt 64)
             (PyInt 512) (PyFloat float_0_001) (PyFloat float_0_4) in
  run 200 0 three_left = (Ok (seeded 144), snd (run 200 0 three_left))
  /\ In a (training_calls (trace (snd (run 200 0 three_left))))
  /\ fixed_configuration a
  /\ kw_max_length a = 6.
Proof.
  intros a.
  split_run (run 200 0 three_left) (seeded 144).
  assert (Hin : In a (training_calls (trace (snd (run 200 0 three_left)))))
    by (vm_compute; repeat (first [left; reflexivity | right])).
  split; [assumption|]. split; [exact Hin|].
  destruct (training_configuration_is_fixed (L := lib 200)
              dataset "lending" 6 "high" 0%nat three_left _ _ a H Hin)
    as (Hfixed & _).
  split; [exact Hfixed | reflexivity].
Defined.

End Runs.

(** ** Further properties of the sweep *)

Section MoreProperties.

Context {data model E csv W : Type} {L : Libraries data model E csv W}.

Local Abbreviation state := (state data model E csv W).
Local Abbreviation event := (event data model E).

Ltac run_cases H :=
  apply sweep_spec in H; inversion H; subst; clear H;
  repeat match goal with p := _ |- _ => subst p end.

Ltac loop_cases :=
  match goal with
  | H : loop_outcome _ _ _ _ _ _ |- _ =>
      inversion H; subst; clear H;
      try match goal with Heq : pending _ _ = _ |- _ => rewrite Heq in * end
  end.

(** *** The files a run touches *)

Lemma pending_elements (fs : gmap string csv) path c :
  In c (pending fs path) ->
  In c hyperparameter_combinations
  /\ py_in c (completed_set fs path) = false.
Proof.
  unfold pending. rewrite filter_In, negb_true_iff. auto.
Qed.

Lemma has_key_columns_concat a b :
  forallb (has_column (columns a)) key_columns = true ->
  forallb (has_column (columns (concat a b))) key_columns = true.
Proof.
  rewrite !forallb_forall. intros H k Hk. apply has_column_concat. auto.
Qed.

(** X1. What a run does to the files: it writes to its own result file
    only, every frame it writes has the six hyperparameter columns and
    starts with the rows that were stored, and at the end every other
    file is as it was and the result file, if there was one, still
    exists. *)
Theorem sweep_writes_only_its_result_file ds ln mpl add w
    (fs : gmap string csv) res (st' : state) :
  sweep ds ln mpl add w fs = (res, st') ->
  let path := results_path_of ln add in
  (forall p, p <> path -> files st' !! p = fs !! p)
  /\ (is_Some (fs !! path) -> is_Some (files st' !! path))
  /\ Forall (fun w => fst w = path
                      /\ forallb (has_column (columns (snd w))) key_columns
                         = true
                      /\ exists recs,
                           rows (snd w) = stored_rows fs path ++ recs)
            (flushes (trace st')).
Proof.
  intros Hrun path. subst path. run_cases Hrun; cbn [files trace flushes].
  - repeat split; auto.
  - repeat split; auto.
  - match goal with H : load_outcome _ _ = Ok _ |- _ =>
      pose proof (load_outcome_keys _ _ _ _ H) as (Hrows & _ & _ & Hall) end.
    split; [|split].
    + intros p Hp. destruct its; [reflexivity|].
      apply lookup_insert_ne. congruence.
    + intros Hsome. destruct its; [exact Hsome|].
      rewrite lookup_insert_eq. eauto.
    + rewrite flushes_app, flushes_iterations.
      assert (flushes tail = []) as -> by (loop_cases; reflexivity).
      rewrite app_nil_r. apply List.Forall_forall. intros [p df] Hin.
      apply in_map_iff in Hin as (k & [= <- <-] & _). cbn [fst snd].
      split; [reflexivity|]. split; [apply has_key_columns_concat, Hall|].
      rewrite rows_concat, rows_DataFrame_records, Hrows. eauto.
  - match goal with H : load_outcome _ _ = Ok _ |- _ =>
      pose proof (load_outcome_keys _ _ _ _ H) as (Hrows & _ & _ & Hall) end.
    split; [|split].
    + intros p Hp. apply lookup_insert_ne. congruence.
    + intros _. rewrite lookup_insert_eq. eauto.
    + rewrite flushes_app, flushes_iterations. apply Forall_app. split.
      * apply List.Forall_forall. intros [p df] Hin.
        apply in_map_iff in Hin as (k & [= <- <-] & _). cbn [fst snd].
        split; [reflexivity|]. split; [apply has_key_columns_concat, Hall|].
        rewrite rows_concat, rows_DataFrame_records, Hrows. eauto.
      * constructor; [|constructor]. cbn [fst snd].
        split; [reflexivity|]. split; [apply has_key_columns_concat, Hall|].
        rewrite rows_concat, rows_DataFrame_records, Hrows. eauto.
Qed.

(** *** The exceptions a run can end with *)


(** X3. When preprocessing raises, the run ends there with that
    exception: the result file is not looked at, whatever it holds, no
    model is trained and no file is written. *)
Theorem preprocessing_failure_ends_the_run ds ln mpl add w w1 e
    (fs : gmap string csv) :
  full_prep ds ln mpl false "case:gender" w = (inl e, w1) ->
  sweep ds ln mpl add w fs
  = (Raise (PreprocessingError e),
     mkState w1 fs [Prepare ds ln mpl false "case:gender";
                    Raised (PreprocessingError e)]).
Proof.
  intros Hprep.
  destruct (sweep ds ln mpl add w fs) as [res st'] eqn:Hrun.
  run_cases Hrun; congruence.
Qed.

(** *** The score of a combination *)

Lemma for_combinations_scored (d : prep_data data) existing path combs :
  forall acc (st : state) recs' st',
    for_combinations d existing path combs acc st = (Ok recs', st') ->
    exists recs,
      recs' = acc ++ recs /\ scored_by d (world st) combs recs (world st').
Proof.
  induction combs as [|c rest IH]; intros acc st recs' st' Hrun.
  - cbn in Hrun. injection Hrun as <- <-. exists []. rewrite app_nil_r.
    split; [reflexivity | constructor].
  - destruct c as [|nl [|bi [|ls [|bs [|lr [|dr [|x c]]]]]]];
      try (cbn in Hrun; discriminate).
    change [nl; bi; ls; bs; lr; dr] with (tuple6 nl bi ls bs lr dr) in *.
    rewrite for_combinations_step in Hrun. cbn zeta in Hrun.
    destruct (train_and_return_LSTM _ (world st)) as [[e|m] w1] eqn:Htrain;
      [discriminate|].
    destruct (forward m _ _ w1) as [[e|out] w2] eqn:Hforward; [discriminate|].
    destruct (roc_auc_score _ out) as [e|auc] eqn:Hscore; [discriminate|].
    apply IH in Hrun as (recs & -> & Hrecs). cbn [world] in Hrecs.
    exists (result_record nl bi ls bs lr dr auc :: recs).
    rewrite <- app_assoc. split; [reflexivity|].
    econstructor; eassumption.
Qed.

(** X4. In the frame a run returns, the score recorded with a
    combination is the score of the model trained with that combination:
    the new records are those of the pending combinations, each trained
    with the fixed configuration, run on the validation data and scored
    against the validation labels, one after the other from the state
    preprocessing left. *)
Theorem scores_belong_to_their_combinations ds ln mpl add w
    (fs : gmap string csv) df (st' : state) :
  sweep ds ln mpl add w fs = (Ok df, st') ->
  let path := results_path_of ln add in
  exists d w1 existing completed recs,
    full_prep ds ln mpl false "case:gender" w = (inr d, w1)
    /\ load_outcome fs path = Ok (existing, completed)
    /\ scored_by d w1 (pending fs path) recs (world st')
    /\ df = concat existing (DataFrame_records recs).
Proof.
  intros Hrun path. subst path. revert Hrun.
  unfold sweep, run_hyper. unfold bind at 1.
  unfold prepare_full_prep, bind at 1, emit, call. cbn [world files trace app].
  destruct (full_prep ds ln mpl false "case:gender" w) as [[e|d] w1] eqn:Hprep;
    [discriminate|].
  unfold ret at 1. unfold bind at 1. rewrite load_results_run. cbn [files].
  destruct (load_outcome fs _) as [[existing completed]|e] eqn:Hload;
    [|discriminate].
  cbn [fst snd]. unfold bind at 1.
  assert (Hpend : List.filter (fun comb => negb (py_in comb completed))
                    hyperparameter_combinations
                  = pending fs (results_path_of ln add)).
  { unfold pending, completed_set. rewrite Hload. reflexivity. }
  rewrite Hpend.
  destruct (for_combinations _ _ _ _ _ _) as [[recs'|e] st1] eqn:Hloop;
    [|discriminate].
  apply for_combinations_scored in Hloop as (recs & -> & Hrecs).
  cbn [world app] in Hrecs.
  unfold df_to_csv, bind, emit, ret. cbn [world files trace].
  intros [= <- <-]. cbn [world].
  exists d, w1, existing, completed, recs. auto.
Qed.

(** *** What a run trains *)

Lemma trained_combinations_app (tr1 tr2 : list event) :
  trained_combinations (tr1 ++ tr2)
  = trained_combinations tr1 ++ trained_combinations tr2.
Proof.
  unfold trained_combinations. rewrite training_calls_app. apply map_app.
Qed.

Lemma trained_combinations_iterations (d : prep_data data) existing path
    (its : list (iteration model)) acc :
  trained_combinations (iterations_events (E := E) d existing path acc its)
  = map it_combination its.
Proof.
  unfold trained_combinations. rewrite training_calls_iterations, map_map.
  apply map_ext. intros i. apply train_key_it_train_args.
Qed.

Lemma trained_combinations_prepare f l n ds col (tr : list event) :
  trained_combinations (Prepare f l n ds col :: tr) = trained_combinations tr.
Proof. reflexivity. Qed.

(** The combinations a run trains are the first of the pending ones, and
    all of them when it returns. *)
Lemma sweep_trained ds ln mpl add w (fs : gmap string csv) res
    (st' : state) :
  sweep ds ln mpl add w fs = (res, st') ->
  exists later,
    pending fs (results_path_of ln add)
    = trained_combinations (trace st') ++ later
    /\ (forall df, res = Ok df -> later = []).
Proof.
  intros Hrun. run_cases Hrun.
  - eexists. split; [reflexivity | discriminate].
  - eexists. split; [reflexivity | discriminate].
  - cbn [trace].
    rewrite trained_combinations_prepare, trained_combinations_app,
      trained_combinations_iterations.
    loop_cases; eexists;
      (split; [rewrite <- app_assoc; f_equal; cbn; reflexivity
              | discriminate]).
  - cbn [trace].
    rewrite trained_combinations_prepare, trained_combinations_app,
      trained_combinations_iterations.
    cbn. rewrite app_nil_r. exists []. rewrite app_nil_r. split; auto.
Qed.

(** X5. No run trains a combination twice, a combination outside the
    grid, or a combination that equals the key of a stored row; with the
    144 combinations of the grid this bounds the models trained in one
    run. *)
Theorem no_redundant_training ds ln mpl add w (fs : gmap string csv) res
    (st' : state) :
  sweep ds ln mpl add w fs = (res, st') ->
  let trained := trained_combinations (trace st') in
  no_dup_keys trained = true
  /\ (length trained <= 144)%nat
  /\ forall c, In c trained ->
       In c hyperparameter_combinations
       /\ forall r, In r (stored_rows fs (results_path_of ln add)) ->
                    tuple_eqb (row_key r) c = false.
Proof.
  intros Hrun trained. subst trained.
  apply sweep_trained in Hrun as (later & Hpend & _).
  assert (Hnd : no_dup_keys (pending fs (results_path_of ln add)) = true)
    by (apply no_dup_keys_filter, grid_no_dup_keys).
  split; [|split].
  - rewrite Hpend in Hnd. apply no_dup_keys_app in Hnd. tauto.
  - assert (length (pending fs (results_path_of ln add)) <= 144)%nat as Hle.
    { unfold pending.
      change 144%nat with (length hyperparameter_combinations).
      apply filter_length_le. }
    rewrite Hpend, length_app in Hle. lia.
  - intros c Hc.
    destruct (pending_elements fs (results_path_of ln add) c) as [Hgrid Hnew].
    { rewrite Hpend. apply in_or_app. now left. }
    split; [exact Hgrid|]. intros r Hr.
    rewrite completed_set_keys in Hnew.
    apply (proj1 (py_in_false _ _) Hnew). apply in_map. exact Hr.
Qed.

(** *** Resuming *)

Lemma filter_andb {A} (f g : A -> bool) l :
  List.filter (fun x => f x && g x) l = List.filter g (List.filter f l).
Proof.
  induction l as [|x l IH]; cbn; [reflexivity|].
  destruct (f x); cbn; [destruct (g x)|]; rewrite IH; reflexivity.
Qed.

(** Filtering out of a duplicate-free list its own first [k] elements
    leaves the others. *)
Lemma filter_out_prefix P :
  forall k,
    no_dup_keys P = true ->
    (forall c, In c P -> tuple_eqb c c = true) ->
    List.filter (fun c => negb (py_in c (take k P))) P = drop k P.
Proof.
  induction P as [|x P IH]; intros k Hnd Hrefl; [destruct k; reflexivity|].
  cbn in Hnd. apply andb_true_iff in Hnd as [Hx Hnd].
  apply negb_true_iff in Hx.
  destruct k as [|k].
  - cbn [take firstn drop skipn]. apply filter_all. reflexivity.
  - cbn [take firstn drop skipn List.filter py_in existsb].
    rewrite (Hrefl x (or_introl eq_refl)). cbn [orb negb].
    rewrite <- (IH k Hnd (fun c Hc => Hrefl c (or_intror Hc))).
    apply filter_ext_in. intros c Hc.
    rewrite tuple_eqb_sym, (proj1 (py_in_false _ _) Hx c Hc). reflexivity.
Qed.

Lemma pending_after_prefix (fs : gmap string csv) path k :
  List.filter
    (fun c =>
       negb (py_in c (completed_set fs path ++ take k (pending fs path))))
    hyperparameter_combinations
  = drop k (pending fs path).
Proof.
  rewrite <- filter_out_prefix.
  - unfold pending at 3. rewrite <- filter_andb. apply filter_ext.
    intros c. rewrite py_in_app, negb_orb. reflexivity.
  - apply no_dup_keys_filter, grid_no_dup_keys.
  - intros c Hc. apply grid_tuples_reflexive.
    apply (pending_elements fs path c Hc).
Qed.

(** X6. What is left to run after a run, whether it returned or raised:
    the combinations that were pending, without one per write of the
    result file, in the same order.  So a run that raised is resumed at
    the combination that failed, and a run that returned leaves nothing.
    The frames the run wrote are taken to read back as written. *)
Theorem next_run_resumes_after_the_last_flush ds ln mpl add w
    (fs : gmap string csv) res (st1 : state) :
  sweep ds ln mpl add w fs = (res, st1) ->
  (forall p df, In (p, df) (flushes (trace st1)) ->
                read_csv (to_csv df) = inr df) ->
  let path := results_path_of ln add in
  pending (files st1) path
  = drop (length (flushes (trace st1))) (pending fs path).
Proof.
  intros Hrun Hread path. subst path. run_cases Hrun;
    cbn [files trace flushes length drop skipn] in *; try reflexivity.
  - rewrite flushes_app, flushes_iterations in *.
    assert (flushes tail = []) as Htail by (loop_cases; reflexivity).
    rewrite Htail, app_nil_r, length_map, length_seq in *.
    destruct its as [|i its]; [reflexivity|].
    set (its' := i :: its) in *.
    match goal with H : load_outcome _ _ = Ok _ |- _ =>
      pose proof (load_outcome_keys _ _ _ _ H) as (_ & Hset & Hkeys & Hall) end.
    assert (Hrt : read_csv
                    (to_csv (concat existing
                               (DataFrame_records (map it_record its'))))
                  = inr (concat existing
                           (DataFrame_records (map it_record its')))).
    { apply (Hread (results_path_of ln add)). apply in_map_iff.
      exists (length its'). split.
      - cbn [app]. rewrite firstn_all2 by (rewrite length_map; lia).
        reflexivity.
      - apply in_seq. cbn. lia. }
    pose proof (load_outcome_after_write fs (results_path_of ln add) _ _
                  Hall Hrt) as Hload2.
    unfold pending at 1, completed_set. rewrite Hload2.
    rewrite rows_concat, rows_DataFrame_records, map_app,
      map_row_key_it_record, <- Hkeys, <- Hset.
    assert (map it_combination its'
            = take (length its') (pending fs (results_path_of ln add)))
      as ->.
    { loop_cases; rewrite <- (length_map it_combination);
        symmetry; apply take_app_length. }
    apply pending_after_prefix.
  - rewrite flushes_app, flushes_iterations in *.
    rewrite length_app, length_map, length_seq. cbn [length].
    match goal with H : load_outcome _ _ = Ok _ |- _ =>
      pose proof (completed_run_keys _ _ _ _ _ H ltac:(eassumption)) as Hkeys;
      pose proof (load_outcome_keys _ _ _ _ H) as (_ & _ & _ & Hall) end.
    assert (Hrt : read_csv
                    (to_csv (concat existing
                               (DataFrame_records (map it_record its))))
                  = inr (concat existing
                           (DataFrame_records (map it_record its)))).
    { apply (Hread (results_path_of ln add)). apply in_or_app. right.
      now left. }
    pose proof (load_outcome_after_write fs (results_path_of ln add) _ _
                  Hall Hrt) as Hload2.
    rewrite skipn_all2.
    2:{ match goal with H : map it_combination _ = _ |- _ => rewrite <- H end.
        rewrite length_map. lia. }
    unfold pending at 1, completed_set. rewrite Hload2, Hkeys.
    apply filter_none. intros c Hc. rewrite grid_is_covered by exact Hc.
    reflexivity.
Qed.

(** *** One sweep after another *)

Lemma hb_ret {A} (a : A) :
  history_blind (ret a : M data model E csv W A).
Proof. intros tr st. reflexivity. Qed.

Lemma hb_raise {A} (e : exn E) :
  history_blind (raise e : M data model E csv W A).
Proof.
  intros tr st. unfold raise, with_earlier. cbn. rewrite app_assoc.
  reflexivity.
Qed.

Lemma hb_emit (ev : event) :
  history_blind (emit ev : M data model E csv W unit).
Proof.
  intros tr st. unfold emit, with_earlier. cbn. rewrite app_assoc.
  reflexivity.
Qed.

Lemma hb_bind {A B} (m : M data model E csv W A)
    (k : A -> M data model E csv W B) :
  history_blind m -> (forall a, history_blind (k a)) ->
  history_blind (bind m k).
Proof.
  intros Hm Hk tr st. unfold bind. rewrite Hm.
  destruct (m st) as [[a|e] st1]; cbn [fst snd]; [apply Hk | reflexivity].
Qed.

Lemma hb_call {A} (f : W -> (E + A) * W) (err : E -> exn E) :
  history_blind (call f err : M data model E csv W A).
Proof.
  intros tr st. unfold call. cbn [with_earlier world files trace].
  destruct (f (world st)) as [[e|a] w1].
  - apply (hb_raise (A := A) (err e) tr (mkState w1 (files st) (trace st))).
  - reflexivity.
Qed.

Lemma hb_df_to_csv df path : history_blind (df_to_csv df path).
Proof.
  unfold df_to_csv. apply hb_bind; [apply hb_emit|].
  intros _ tr st. reflexivity.
Qed.

Lemma hb_load_results path : history_blind (load_results path).
Proof.
  unfold load_results. apply hb_bind; [intros tr st; reflexivity|].
  intros [|]; [|apply hb_ret].
  apply hb_bind.
  - intros tr st. unfold pd_read_csv. cbn [with_earlier files].
    destruct (files st !! path) as [c|];
      [destruct (read_csv c)|]; first [apply hb_raise | apply hb_ret].
  - intros df. destruct (getitem df key_columns);
      [apply hb_raise | apply hb_ret].
Qed.

Lemma hb_for_combinations (d : prep_data data) existing path combs :
  forall acc, history_blind (for_combinations d existing path combs acc).
Proof.
  induction combs as [|c rest IH]; intros acc; [apply hb_ret|].
  destruct c as [|nl [|bi [|ls [|bs [|lr [|dr [|x c]]]]]]];
    try apply hb_raise.
  cbn [for_combinations]. apply hb_bind.
  { unfold initialize_model. apply hb_bind; [apply hb_emit|].
    intros _. apply hb_call. }
  intros m. apply hb_bind.
  { unfold evaluate_model. apply hb_bind; [apply hb_emit|].
    intros _. apply hb_bind; [apply hb_call|].
    intros out. destruct (roc_auc_score _ out);
      [apply hb_raise | apply hb_ret]. }
  intros auc. apply hb_bind; [apply hb_df_to_csv|]. intros _. apply IH.
Qed.

Lemma hb_run_hyper ds ln mpl add : history_blind (run_hyper ds ln mpl add).
Proof.
  unfold run_hyper. apply hb_bind.
  { unfold prepare_full_prep. apply hb_bind; [apply hb_emit|].
    intros _. apply hb_call. }
  intros d. apply hb_bind; [apply hb_load_results|].
  intros loaded. apply hb_bind; [apply hb_for_combinations|].
  intros recs. apply hb_bind; [apply hb_df_to_csv|]. intros _. apply hb_ret.
Qed.

(** A sweep that starts after other events. *)
Lemma run_hyper_after ds ln mpl add w (fs : gmap string csv)
    (tr : list event) :
  run_hyper ds ln mpl add (mkState w fs tr)
  = (fst (sweep ds ln mpl add w fs),
     with_earlier tr (snd (sweep ds ln mpl add w fs))).
Proof.
  unfold sweep. rewrite <- hb_run_hyper. unfold with_earlier. cbn.
  rewrite app_nil_r. reflexivity.
Qed.

Lemma run_all_cons i invs w (fs : gmap string csv) (tr : list event) :
  run_all (i :: invs) (mkState w fs tr)
  = match sweep (inv_dataset_name i) (inv_logname i) (inv_max_prefix_len i)
                (inv_addendum i) w fs with
    | (Ok _, st1) =>
        run_all invs (mkState (world st1) (files st1) (tr ++ trace st1))
    | (Raise e, st1) =>
        (Raise e, mkState (world st1) (files st1) (tr ++ trace st1))
    end.
Proof.
  cbn [run_all]. unfold bind at 1. rewrite run_hyper_after.
  destruct (sweep _ _ _ _ w fs) as [[df|e] st1]; reflexivity.
Qed.

Lemma script_is_run_all : script (L := L) = run_all script_invocations.
Proof. reflexivity. Qed.

Lemma prepare_events_app (tr1 tr2 : list event) :
  prepare_events (tr1 ++ tr2) = prepare_events tr1 ++ prepare_events tr2.
Proof.
  induction tr1 as [|[] tr1 IH]; cbn; rewrite ?IH; reflexivity.
Qed.

Lemma prepare_events_iterations (d : prep_data data) existing path
    (its : list (iteration model)) :
  forall acc,
    prepare_events (iterations_events (E := E) d existing path acc its) = [].
Proof.
  induction its as [|i its IH]; intros acc; [reflexivity|].
  cbn [iterations_events prepare_events]. apply IH.
Qed.

(** The preprocessing call of a sweep, and where a sweep that raises
    stops. *)
Lemma sweep_prepare_events ds ln mpl add w (fs : gmap string csv) res
    (st' : state) :
  sweep ds ln mpl add w fs = (res, st') ->
  prepare_events (trace st') = [Prepare ds ln mpl false "case:gender"]
  /\ forall e, res = Raise e -> exists tr0, trace st' = tr0 ++ [Raised e].
Proof.
  intros Hrun. run_cases Hrun; cbn [trace prepare_events].
  - split; [reflexivity|]. intros ? [= <-]. eexists [_]. reflexivity.
  - split; [reflexivity|]. intros ? [= <-]. eexists [_]. reflexivity.
  - rewrite prepare_events_app, prepare_events_iterations.
    loop_cases; (split; [reflexivity|]); intros ? [= <-];
      [eexists (_ :: _ ++ []) | eexists (_ :: _ ++ [_])
       | eexists (_ :: _ ++ [_; _]) | eexists (_ :: _ ++ [_; _])];
      cbn [app]; rewrite <- app_assoc; reflexivity.
  - rewrite prepare_events_app, prepare_events_iterations.
    split; [reflexivity | discriminate].
Qed.

Lemma run_all_prepares invs :
  forall w (fs : gmap string csv) (tr : list event) res (st' : state),
    run_all invs (mkState w fs tr) = (res, st') ->
    exists n,
      prepare_events (trace st')
      = prepare_events tr ++ map inv_prepare (take n invs)
      /\ (n <= length invs)%nat
      /\ (res = Ok tt -> n = length invs)
      /\ (forall e, res = Raise e ->
            (0 < n)%nat /\ exists tr0, trace st' = tr0 ++ [Raised e]).
Proof.
  induction invs as [|i invs IH]; intros w fs tr res st' Hrun.
  - cbn in Hrun. injection Hrun as <- <-. exists O. cbn.
    rewrite app_nil_r. repeat split; try discriminate; lia.
  - rewrite run_all_cons in Hrun.
    destruct (sweep _ _ _ _ w fs) as [[df|e] st1] eqn:Hsweep;
      apply sweep_prepare_events in Hsweep as [Hprep Hstop].
    + apply IH in Hrun as (n & Hn & Hle & Hok & Hraise).
      exists (S n). cbn [take firstn map length]. split; [|split; [lia|split]].
      * rewrite Hn, prepare_events_app, Hprep, <- app_assoc. reflexivity.
      * intros Hres. rewrite (Hok Hres). reflexivity.
      * intros e He. destruct (Hraise e He) as [_ Hlast].
        split; [lia | exact Hlast].
    + injection Hrun as <- <-. exists 1%nat. cbn [take firstn map length trace].
      split; [|split; [lia|split; [discriminate|]]].
      * rewrite prepare_events_app, Hprep. reflexivity.
      * intros e0 [= <-]. split; [lia|].
        destruct (Hstop e eq_refl) as [tr0 ->]. exists (tr ++ tr0).
        rewrite app_assoc. reflexivity.
Qed.

(** X7. The script runs its nine sweeps in the order written and stops
    at the first that raises: the preprocessing calls made are those of
    the first [n] sweeps, with prefix length 6, the sensitive column
    kept and named 'case:gender'; all nine when the script ends
    normally; and when it ends with an exception, at least one, and the
    raising of that exception is the last thing that happened. *)
Theorem script_stops_at_the_first_failure w (fs : gmap string csv) res
    (st' : state) :
  script (mkState w fs []) = (res, st') ->
  exists n,
    prepare_events (trace st') = map inv_prepare (take n script_invocations)
    /\ (n <= 9)%nat
    /\ (res = Ok tt -> n = 9%nat)
    /\ (forall e, res = Raise e ->
          (0 < n)%nat /\ exists tr0, trace st' = tr0 ++ [Raised e]).
Proof.
  rewrite script_is_run_all. intros Hrun.
  apply run_all_prepares in Hrun. exact Hrun.
Qed.

(** The training and evaluation calls of a sweep. *)
Lemma sweep_calls ds ln mpl add w (fs : gmap string csv) res (st' : state) :
  sweep ds ln mpl add w fs = (res, st') ->
  exists later,
    calls_for (pending fs (results_path_of ln add))
    = collaborator_calls (trace st') ++ later
    /\ (forall df, res = Ok df -> later = []).
Proof.
  intros Hrun. run_cases Hrun; cbn [trace collaborator_calls].
  - eexists. split; [reflexivity | discriminate].
  - eexists. split; [reflexivity | discriminate].
  - rewrite collaborator_calls_app, collaborator_calls_iterations.
    loop_cases; rewrite calls_for_app; eexists;
      (split; [rewrite <- app_assoc; f_equal; cbn; reflexivity
              | discriminate]).
  - rewrite collaborator_calls_app, collaborator_calls_iterations.
    exists []. cbn. rewrite !app_nil_r. split; [congruence | auto].
Qed.

Lemma sweep_other_files ds ln mpl add w (fs : gmap string csv) res
    (st' : state) p :
  sweep ds ln mpl add w fs = (res, st') ->
  p <> results_path_of ln add ->
  files st' !! p = fs !! p.
Proof.
  intros Hrun Hp. run_cases Hrun; cbn [files]; try reflexivity.
  - destruct its; [reflexivity|]. apply lookup_insert_ne. congruence.
  - apply lookup_insert_ne. congruence.
Qed.

(** What is pending for a result file depends on that file only. *)
Lemma pending_ext (fs fs' : gmap string csv) path :
  fs !! path = fs' !! path -> pending fs path = pending fs' path.
Proof.
  intros Heq. unfold pending, completed_set, load_outcome. rewrite Heq.
  reflexivity.
Qed.

Lemma flat_map_agree {A B} (f g : A -> list B) l :
  (forall x, In x l -> f x = g x) -> flat_map f l = flat_map g l.
Proof.
  induction l as [|x l IH]; intros H; cbn; [reflexivity|].
  rewrite (H x (or_introl eq_refl)), IH; [reflexivity|].
  intros y Hy. apply H. now right.
Qed.

Lemma script_paths_distinct :
  List.NoDup (map inv_results_path script_invocations).
Proof.
  apply NoDup_ListNoDup. apply (bool_decide_unpack _). vm_compute. exact I.
Qed.

Lemma run_all_calls invs :
  List.NoDup (map inv_results_path invs) ->
  forall w (fs : gmap string csv) (tr : list event) res (st' : state),
    run_all invs (mkState w fs tr) = (res, st') ->
    exists later,
      collaborator_calls tr
      ++ flat_map (fun i => calls_for (pending fs (inv_results_path i))) invs
      = collaborator_calls (trace st') ++ later
      /\ (res = Ok tt -> later = []).
Proof.
  induction invs as [|i invs IH]; intros Hnd w fs tr res st' Hrun.
  - cbn in Hrun. injection Hrun as <- <-. exists []. cbn. auto.
  - cbn [map] in Hnd. apply List.NoDup_cons_iff in Hnd as [Hfresh Hnd].
    rewrite run_all_cons in Hrun. cbn [flat_map].
    destruct (sweep _ _ _ _ w fs) as [[df|e] st1] eqn:Hsweep.
    + pose proof (sweep_calls _ _ _ _ _ _ _ _ Hsweep) as (l1 & Hcalls & Hall).
      rewrite (Hall df eq_refl), app_nil_r in Hcalls.
      apply (IH Hnd) in Hrun as (later & Hrest & Hok).
      exists later. split; [|exact Hok].
      rewrite <- Hrest, collaborator_calls_app, <- app_assoc.
      f_equal. fold (inv_results_path i) in Hcalls. rewrite Hcalls. f_equal.
      apply flat_map_agree. intros j Hj. f_equal. apply pending_ext.
      symmetry. eapply sweep_other_files; [exact Hsweep|].
      intros Heq. apply Hfresh. fold (inv_results_path i) in Heq.
      rewrite <- Heq. apply in_map. exact Hj.
    + injection Hrun as <- <-. cbn [trace].
      pose proof (sweep_calls _ _ _ _ _ _ _ _ Hsweep) as (l1 & Hcalls & _).
      fold (inv_results_path i) in Hcalls. rewrite Hcalls.
      eexists. rewrite collaborator_calls_app, <- !app_assoc.
      split; [reflexivity | discriminate].
Qed.

(** X8. The sweeps of the script do not disturb one another: they have
    nine different result files, and what the script trains and evaluates
    is, for each log in turn, the combinations pending in the result file
    of that log as it was before the script started; all of them when
    the script ends normally, and the first of them when it stops at an
    exception. *)
Theorem script_sweeps_are_independent w (fs : gmap string csv) res
    (st' : state) :
  script (mkState w fs []) = (res, st') ->
  List.NoDup (map inv_results_path script_invocations)
  /\ exists later,
       flat_map (fun i => calls_for (pending fs (inv_results_path i)))
                script_invocations
       = collaborator_calls (trace st') ++ later
       /\ (res = Ok tt -> later = []).
Proof.
  rewrite script_is_run_all. intros Hrun.
  split; [exact script_paths_distinct|].
  exact (run_all_calls _ script_paths_distinct _ _ _ _ _ Hrun).
Qed.





(** X11. Loading the earlier results reads only: it leaves the files and
    the outside state as they are and adds nothing to the trace.  The
    frame it returns has the six hyperparameter columns, and the
    completed set holds the key of each of its rows, in order, and
    nothing else: no other column of the file is consulted. *)
Theorem load_results_reads_only path (st st' : state) df completed :
  load_results path st = (Ok (df, completed), st') ->
  st' = st
  /\ completed = map row_key (rows df)
  /\ forallb (has_column (columns df)) key_columns = true
  /\ match files st !! path with
     | None => df = DataFrame_columns result_columns
     | Some c => read_csv c = inr df
     end.
Proof.
  rewrite load_results_run. intros [= Hload Hst].
  rewrite Hload in Hst. split; [auto|].
  pose proof (load_outcome_keys _ _ _ _ Hload) as (_ & _ & Hkeys & Hall).
  split; [exact Hkeys|]. split; [exact Hall|].
  unfold load_outcome in Hload. destruct (files st !! path) as [c|].
  - destruct (read_csv c) as [e|df0]; [discriminate|].
    destruct (getitem df0 key_columns); [discriminate|]. congruence.
  - congruence.
Qed.

End MoreProperties.

(** *** The enumeration of any axes *)

(** X9. For axes without repeated values, [product] yields as many tuples
    as the product of the sizes of the axes, no tuple twice, and exactly
    the tuples that take one value from each axis, in the order of the
    axes. *)
Theorem product_is_the_cartesian_product {A : Type} (pools : list (list A)) :
  Forall (@List.NoDup A) pools ->
  length (product pools)
  = fold_right (fun pool n => (length pool * n)%nat) 1%nat pools
  /\ List.NoDup (product pools)
  /\ forall t, In t (product pools)
               <-> Forall2 (fun x pool => In x pool) t pools.
Proof.
  intros Hnd. split; [apply length_product|].
  split; [apply NoDup_product; exact Hnd | apply in_product].
Qed.

(** ** The further properties on concrete runs *)

Module MoreRuns.

Import Demo DemoScript.

Local Abbreviation dataset := "Datasets/lending_log_high.xes.gz".

Ltac split_result r v :=
  let Hres := fresh "Hres" in
  assert (Hres : fst r = v) by (vm_compute; reflexivity);
  assert (r = (v, snd r)) by (rewrite <- Hres; apply surjective_pairing);
  clear Hres.

Lemma sweep_writes_only_its_result_file_witness :
  run 200 0 three_left = (Ok (seeded 144), snd (run 200 0 three_left))
  /\ files (snd (run 200 0 three_left)) !! "notes.txt"
     = three_left !! "notes.txt"
  /\ is_Some (files (snd (run 200 0 three_left)) !! path).
Proof.
  split_result (run 200 0 three_left) (Ok (E := string) (seeded 144)).
  split; [assumption|].
  destruct (sweep_writes_only_its_result_file (L := lib 200)
              dataset "lending" 6 "high" 0%nat three_left _ _ H)
    as (Hother & Hkept & _).
  split.
  - apply Hother. vm_compute. discriminate.
  - apply Hkept. vm_compute. eauto.
Defined.


Lemma preprocessing_failure_ends_the_run_witness :
  full_prep (Libraries := lib_without_data) dataset "lending" 6 false
            "case:gender" 0%nat
  = (inl "no such file", 0%nat)
  /\ sweep (L := lib_without_data) dataset "lending" 6 "high" 0%nat malformed
     = (Raise (PreprocessingError "no such file"),
        mkState 0%nat malformed
          [Prepare dataset "lending" 6 false "case:gender";
           Raised (PreprocessingError "no such file")]).
Proof.
  split; [reflexivity|].
  apply (preprocessing_failure_ends_the_run (L := lib_without_data)).
  reflexivity.
Defined.

Lemma scores_belong_to_their_combinations_witness :
  run 200 0 three_left = (Ok (seeded 144), snd (run 200 0 three_left))
  /\ exists recs,
       scored_by (L := lib 200) demo_data 0%nat
                 (pending (L := lib 200) three_left path) recs
                 (world (snd (run 200 0 three_left)))
       /\ seeded 144 = concat (seeded 141) (DataFrame_records recs).
Proof.
  split_result (run 200 0 three_left) (Ok (E := string) (seeded 144)).
  split; [assumption|].
  destruct (scores_belong_to_their_combinations (L := lib 200)
              dataset "lending" 6 "high" 0%nat three_left _ _ H)
    as (d & w1 & existing & completed & recs & Hprep & Hload & Hscored & Hdf).
  injection Hprep as <- <-.
  assert (Hl : load_outcome (L := lib 200) three_left path
               = Ok (seeded 141, firstn 141 hyperparameter_combinations))
    by (vm_compute; reflexivity).
  change (results_path_of "lending" "high") with path in *.
  rewrite Hl in Hload. injection Hload as <- <-.
  exists recs. split; [exact Hscored | exact Hdf].
Defined.

Lemma no_redundant_training_witness :
  run 200 0 three_left = (Ok (seeded 144), snd (run 200 0 three_left))
  /\ no_dup_keys (trained_combinations (trace (snd (run 200 0 three_left))))
     = true
  /\ length (trained_combinations (trace (snd (run 200 0 three_left))))
     = 3%nat.
Proof.
  split_result (run 200 0 three_left) (Ok (E := string) (seeded 144)).
  split; [assumption|].
  destruct (no_redundant_training (L := lib 200)
              dataset "lending" 6 "high" 0%nat three_left _ _ H)
    as (Hnd & _).
  split; [exact Hnd | vm_compute; reflexivity].
Defined.

(** Training fails at the third of four: two are left for the next run. *)
Lemma next_run_resumes_after_the_last_flush_witness :
  let r := run 2 0 four_left in
  r = (fst r, snd r)
  /\ (forall p df, In (p, df) (flushes (trace (snd r))) ->
                   read_csv (Libraries := lib 2)
                            (to_csv (Libraries := lib 2) df) = inr df)
  /\ pending (L := lib 2) (files (snd r)) path
     = drop (length (flushes (trace (snd r))))
            (pending (L := lib 2) four_left path)
  /\ length (flushes (trace (snd r))) = 2%nat
  /\ pending (L := lib 2) (files (snd r)) path
     = skipn 142 hyperparameter_combinations.
Proof.
  intros r.
  pose proof (surjective_pairing r) as H.
  assert (Hread : forall p df, In (p, df) (flushes (trace (snd r))) ->
                    read_csv (Libraries := lib 2)
                             (to_csv (Libraries := lib 2) df) = inr df)
    by (intros p df _; reflexivity).
  split; [exact H|]. split; [exact Hread|].
  split.
  - exact (next_run_resumes_after_the_last_flush (L := lib 2)
             dataset "lending" 6 "high" 0%nat four_left _ _ H Hread).
  - split; vm_compute; reflexivity.
Defined.

(** The third sweep of the script fails for lack of budget. *)
Lemma script_stops_at_the_first_failure_witness :
  let r := run_script 2 0 (all_seeded 143) in
  r = (fst r, snd r)
  /\ fst r = Raise (TrainingError "out of memory")
  /\ prepare_events (trace (snd r))
     = map inv_prepare (take 3 script_invocations)
  /\ exists n,
       prepare_events (trace (snd r))
       = map inv_prepare (take n script_invocations)
       /\ (n <= 9)%nat.
Proof.
  intros r.
  pose proof (surjective_pairing r) as H.
  split; [exact H|].
  split; [vm_compute; reflexivity|].
  split; [vm_compute; reflexivity|].
  destruct (script_stops_at_the_first_failure (L := lib 2)
              0%nat (all_seeded 143) _ _ H)
    as (n & Hprep & Hle & _).
  exists n. split; assumption.
Defined.

Lemma script_sweeps_are_independent_witness :
  let r := run_script 200 0 (all_seeded 143) in
  r = (Ok tt, snd r)
  /\ collaborator_calls (trace (snd r))
     = flat_map (fun i => calls_for (pending (L := lib 200) (all_seeded 143)
                                             (inv_results_path i)))
                script_invocations
  /\ length (collaborator_calls (trace (snd r))) = 18%nat.
Proof.
  intros r.
  split_result r (Ok (E := string) tt).
  split; [assumption|].
  destruct (script_sweeps_are_independent (L := lib 200)
              0%nat (all_seeded 143) _ _ H)
    as (_ & later & Hcalls & Hall).
  rewrite (Hall eq_refl), app_nil_r in Hcalls.
  split; [symmetry; exact Hcalls | vm_compute; reflexivity].
Defined.

Lemma product_is_the_cartesian_product_witness :
  Forall (@List.NoDup Z) [[1; 2]; [3]; [4; 5]]
  /\ length (product [[1; 2]; [3]; [4; 5]]) = 4%nat
  /\ List.NoDup (product [[1; 2]; [3]; [4; 5]]).
Proof.
  assert (Hnd : Forall (@List.NoDup Z) [[1; 2]; [3]; [4; 5]]).
  { repeat (apply List.Forall_cons);
      repeat (apply List.NoDup_cons; [cbn; intuition discriminate|]);
      try apply List.NoDup_nil. apply List.Forall_nil. }
  split; [exact Hnd|].
  destruct (product_is_the_cartesian_product _ Hnd) as (Hlen & Hnodup & _).
  split; [exact Hlen | exact Hnodup].
Defined.


Lemma load_results_reads_only_witness :
  let st := mkState (data := Z) (model := nat) (E := string) 0%nat
                    three_left [] in
  load_results (L := lib 200) path st
  = (Ok (seeded 141, firstn 141 hyperparameter_combinations), st)
  /\ firstn 141 hyperparameter_combinations = map row_key (rows (seeded 141)).
Proof.
  intros st.
  assert (H : load_results (L := lib 200) path st
              = (Ok (seeded 141, firstn 141 hyperparameter_combinations), st))
    by (vm_compute; reflexivity).
  split; [exact H|].
  destruct (load_results_reads_only (L := lib 200) path st st _ _ H)
    as (_ & Hkeys & _).
  exact Hkeys.
Defined.

End MoreRuns.
